(** * cron-job-server: a model of [src/index.js]

    The server keeps two stores: the jobs file [data/jobs.json] (an object
    keyed by job id) and the in-memory [activeJobs] map from job id to the
    node-cron task that fires the job.  This development embeds the functions
    of [src/index.js] over an explicit server state and proves the properties
    of the job life cycle, of the HTTP handlers and of the delivery callback.

    Modelling conventions.
    - Values of the request body are JSON scalars and [undefined] for an
      absent field ([jsval]); numbers are integers printed in decimal.  Arrays
      and objects as field values are outside the model.
    - A JS object used as a dictionary ([jobs], [headers]) is a [gmap] keyed by
      property name; lookups are own-property lookups.
    - [JSON.stringify] and [JSON.parse] work on JSON documents ([json]), not
      on their text.
    - A node-cron task is an entry of the task heap [tasks]; [activeJobs]
      stores handles (indices into the heap), so a task that is replaced in
      the map still exists, stopped or not, in the heap.
    - Code that can throw runs in a state-and-exception monad [M]; a handler
      runs to completion (its [await] points are not interleaved with other
      handlers).  [startJob] and the removal of a timer contain no [await].
    - What the environment decides is an argument: the clock and the fate of
      [fs.writeFile] ([world]), the answer of the network ([fetch_result]),
      the [x-api-key] header and [process.env.API_KEY].
    - node-cron ([cron.validate], [cron.schedule]) and the WHATWG [URL]
      constructor are libraries, not code of the repository: they are the
      operations of the class [Platform].  [Node.platform] is an instance
      that follows the specification; the examples are run on it. *)

From Stdlib Require Import Ascii.
From stdpp Require Import gmap strings list fin_maps pretty.

Local Open Scope string_scope.
Local Open Scope list_scope.
Local Open Scope nat_scope.

(** ** JavaScript values *)

Inductive jsval :=
  | VUndefined
  | VNull
  | VBool (b : bool)
  | VNum (n : Z)
  | VStr (s : string).

#[global] Instance jsval_eq_dec : EqDecision jsval.
Proof. solve_decision. Defined.

Definition jsval_code (v : jsval) : unit + (unit + (bool + (Z + string))) :=
  match v with
  | VUndefined => inl tt
  | VNull => inr (inl tt)
  | VBool b => inr (inr (inl b))
  | VNum n => inr (inr (inr (inl n)))
  | VStr s => inr (inr (inr (inr s)))
  end.

Definition jsval_decode (c : unit + (unit + (bool + (Z + string)))) : jsval :=
  match c with
  | inl _ => VUndefined
  | inr (inl _) => VNull
  | inr (inr (inl b)) => VBool b
  | inr (inr (inr (inl n))) => VNum n
  | inr (inr (inr (inr s))) => VStr s
  end.

#[global] Instance jsval_countable : Countable jsval.
Proof. by apply (inj_countable' jsval_code jsval_decode); intros []. Defined.

(** ToBoolean: what [if (v)] and [!v] test. *)
Definition truthy (v : jsval) : bool :=
  match v with
  | VUndefined | VNull => false
  | VBool b => b
  | VNum n => negb (n =? 0)%Z
  | VStr s => negb (String.eqb s "")
  end.

(** ToString: what a template literal and a property access [o[v]] apply. *)
Definition to_string (v : jsval) : string :=
  match v with
  | VUndefined => "undefined"
  | VNull => "null"
  | VBool true => "true"
  | VBool false => "false"
  | VNum n => pretty n
  | VStr s => s
  end.

(** ** JSON documents (the jobs file and the response bodies) *)

#[warnings="-register-all"]
Inductive json :=
  | JNull
  | JBool (b : bool)
  | JNum (n : Z)
  | JStr (s : string)
  | JObj (fields : list (string * json)).

(** [JSON.stringify] of a scalar; a property whose value is [undefined] is
    left out of the enclosing object. *)
Definition to_json (v : jsval) : option json :=
  match v with
  | VUndefined => None
  | VNull => Some JNull
  | VBool b => Some (JBool b)
  | VNum n => Some (JNum n)
  | VStr s => Some (JStr s)
  end.

(** The value read back from a parsed document (object-valued fields are
    not read by the server). *)
Definition of_json (j : json) : jsval :=
  match j with
  | JNull => VNull
  | JBool b => VBool b
  | JNum n => VNum n
  | JStr s => VStr s
  | JObj _ => VUndefined
  end.

(** [JSON.stringify] of an object literal with scalar properties. *)
Definition json_object (props : list (string * jsval)) : json :=
  JObj (omap (λ p, pair p.1 <$> to_json p.2) props).

(** The last property of that name, as [JSON.parse] keeps it. *)
Fixpoint assoc_last {A} (k : string) (fs : list (string * A)) : option A :=
  match fs with
  | [] => None
  | (k', v) :: fs' =>
      match assoc_last k fs' with
      | Some w => Some w
      | None => if decide (k' = k) then Some v else None
      end
  end.

(** Property read [o.k] on a parsed document. *)
Definition json_get (k : string) (j : json) : option json :=
  match j with
  | JObj fs => assoc_last k fs
  | _ => None
  end.

Definition json_field (k : string) (j : json) : jsval :=
  from_option of_json VUndefined (json_get k j).

(** The property names of an object. *)
Definition json_keys (j : json) : list string :=
  match j with
  | JObj fs => fs.*1
  | _ => []
  end.

Definition json_has_key (k : string) (j : json) : bool :=
  bool_decide (k ∈ json_keys j).

(** ** Persisted job records *)

(** A job object of the jobs map.  A property that is missing reads as
    [undefined]; the record does not tell the two apart. *)
Record jobrec := JobRec {
  url : jsval;
  schedule : jsval;
  cronSecret : jsval;
  createdAt : jsval;
  createdBy : jsval
}.

Abbreviation jobmap := (gmap string jobrec).

(** The properties of a job object, in the order of the object literal of
    [app.post("/jobs")], and [JSON.stringify(job)]. *)
Definition job_props (r : jobrec) : list (string * jsval) :=
  [("url", url r); ("schedule", schedule r); ("cronSecret", cronSecret r);
   ("createdAt", createdAt r); ("createdBy", createdBy r)].

Definition job_json (r : jobrec) : json := json_object (job_props r).

Definition json_job (j : json) : jobrec :=
  {| url := json_field "url" j;
     schedule := json_field "schedule" j;
     cronSecret := json_field "cronSecret" j;
     createdAt := json_field "createdAt" j;
     createdBy := json_field "createdBy" j |}.

(** [JSON.stringify(jobs, null, 2)] and [JSON.parse(data)]. *)
Definition stringify_jobs (jobs : jobmap) : json :=
  JObj (prod_map id job_json <$> map_to_list jobs).

Definition parse_jobs (doc : json) : jobmap :=
  match doc with
  | JObj fs => foldl (λ m p, <[p.1 := json_job p.2]> m) ∅ fs
  | _ => ∅
  end.

(** ** Libraries the server calls *)

(** [cron_validate e] is [cron.validate(e)]; [cron_schedule_error e] is the
    message of the exception [cron.schedule(e, f)] throws, [None] when it
    returns a task; [url_ok u] tells whether [new URL(u)] returns. *)
Class Platform := {
  cron_validate : jsval → bool;
  cron_schedule_error : jsval → option string;
  url_ok : jsval → bool
}.

(** ** Server state *)

(** A node-cron task created by [startJob]: its cron expression, the
    variables its callback closes over, and whether it is still running
    ([stop()] has not been called). *)
Record task := Task {
  t_schedule : jsval;
  t_id : jsval;
  t_url : jsval;
  t_secret : jsval;
  t_running : bool
}.

Record http_request := HttpRequest {
  rq_method : string;
  rq_url : jsval;
  rq_headers : gmap string string
}.

Inductive logline :=
  | ConsoleLog (text : string)
  | ConsoleError (text : string) (detail : string).

Record state := State {
  file : option json;            (* data/jobs.json; None: unreadable *)
  tasks : list task;             (* every task cron.schedule has created *)
  activeJobs : gmap jsval nat;   (* the Map of line 57 *)
  outbox : list http_request;    (* requests handed to fetch, oldest first *)
  console : list logline         (* console output, oldest first *)
}.

Definition set_file (f : option json) (st : state) : state :=
  State f (tasks st) (activeJobs st) (outbox st) (console st).
Definition set_tasks (ts : list task) (st : state) : state :=
  State (file st) ts (activeJobs st) (outbox st) (console st).
Definition set_activeJobs (a : gmap jsval nat) (st : state) : state :=
  State (file st) (tasks st) a (outbox st) (console st).
Definition set_outbox (o : list http_request) (st : state) : state :=
  State (file st) (tasks st) (activeJobs st) o (console st).
Definition set_console (c : list logline) (st : state) : state :=
  State (file st) (tasks st) (activeJobs st) (outbox st) c.

(** The state of a server that has just been launched on the file [f]. *)
Definition boot (f : option json) : state := State f [] ∅ [] [].

(** ** Computations that may throw *)

Inductive outcome (A : Type) :=
  | Ret (a : A)
  | Throw (message : string).
Arguments Ret {A} a.
Arguments Throw {A} message.

Definition M (A : Type) : Type := state → outcome A * state.

Definition ret {A} (a : A) : M A := λ st, (Ret a, st).
Definition throw {A} (msg : string) : M A := λ st, (Throw msg, st).
Definition bind {A B} (m : M A) (k : A → M B) : M B :=
  λ st, match m st with
        | (Ret a, st') => k a st'
        | (Throw msg, st') => (Throw msg, st')
        end.
(** [try { m } catch (error) { h error.message }] *)
Definition try_catch {A} (m : M A) (h : string → M A) : M A :=
  λ st, match m st with
        | (Ret a, st') => (Ret a, st')
        | (Throw msg, st') => h msg st'
        end.
Definition get_state : M state := λ st, (Ret st, st).
Definition modify (f : state → state) : M unit := λ st, (Ret tt, f st).

Declare Scope js_scope.
Delimit Scope js_scope with js.
Notation "'let!' x ':=' m 'in' k" := (bind m (λ x, k))
  (at level 10, x name, m at level 100, k at level 200) : js_scope.
Notation "'do!' m 'in' k" := (bind m (λ _, k))
  (at level 10, m at level 100, k at level 200) : js_scope.
Local Open Scope js_scope.

(** [l.forEach(f)]: the first exception ends the loop. *)
Fixpoint forEach {A} (f : A → M unit) (l : list A) : M unit :=
  match l with
  | [] => ret tt
  | x :: l' => do! f x in forEach f l'
  end.

(** The state a computation leaves and the value it returns. *)
Definition exec {A} (m : M A) (st : state) : state := (m st).2.
Definition eval {A} (m : M A) (st : state) : outcome A := (m st).1.

(** ** The jobs file (lines 22-44) *)

(** What the file system answers to one request: the reading of the clock
    ([new Date().toISOString()]) and, when [fs.writeFile] rejects, the
    message of its error. *)
Record world := World {
  now : string;
  write_error : option string
}.

(** [ensureDataDirectory]: creates [../data] when it is missing.  The
    directory is not part of the modelled state. *)
Definition ensureDataDirectory : M unit := ret tt.

(** [loadJobs]: the parsed file, [{}] when reading or parsing throws. *)
Definition loadJobs : M jobmap :=
  λ st, match file st with
        | Some doc => (Ret (parse_jobs doc), st)
        | None => (Ret ∅, st)
        end.

(** [saveJobs]: overwrites the file; a rejected write is thrown on. *)
Definition saveJobs (w : world) (jobs : jobmap) : M unit :=
  match write_error w with
  | Some msg => throw msg
  | None => modify (set_file (Some (stringify_jobs jobs)))
  end.

(** ** Scheduler (lines 56-92) *)

(** [task.stop()] *)
Definition stop (t : task) : task :=
  Task (t_schedule t) (t_id t) (t_url t) (t_secret t) false.

Definition task_stop (h : nat) : M unit :=
  modify (λ st, set_tasks (alter stop h (tasks st)) st).

Section Server.
Context `{Platform}.

(** [cron.schedule(schedule, callback)]: a new running task whose callback
    closes over [id], [url] and [cronSecret]; returns its handle. *)
Definition cron_schedule (schedule id url cronSecret : jsval) : M nat :=
  match cron_schedule_error schedule with
  | Some msg => throw msg
  | None =>
      λ st, (Ret (length (tasks st)),
             set_tasks (tasks st ++ [Task schedule id url cronSecret true]) st)
  end.

Definition startJob (id url schedule cronSecret : jsval) : M unit :=
  let! st := get_state in
  do! match activeJobs st !! id with
      | Some h => task_stop h
      | None => ret tt
      end in
  let! job := cron_schedule schedule id url cronSecret in
  modify (λ st, set_activeJobs (<[id := job]> (activeJobs st)) st).

(** Lines 180-183 of [app.delete]: stop and forget the timer of [id]. *)
Definition stopJob (id : jsval) : M unit :=
  let! st := get_state in
  match activeJobs st !! id with
  | Some h =>
      do! task_stop h in
      modify (λ st, set_activeJobs (delete id (activeJobs st)) st)
  | None => ret tt
  end.

(** [initializeJobs] (lines 47-54) *)
Definition initializeJobs : M unit :=
  do! ensureDataDirectory in
  let! jobs := loadJobs in
  forEach (λ p : string * jobrec,
             startJob (VStr p.1) (url p.2) (schedule p.2) (cronSecret p.2))
          (map_to_list jobs).

(** ** Delivery (the callback of lines 67-89) *)

Inductive fetch_result :=
  | Responded (status : nat)
  | Rejected (message : string).

(** [await fetch(url, options)]: the request goes out; the network answers
    with a response or the promise rejects. *)
Definition fetch (rq : http_request) (net : fetch_result) : M nat :=
  do! modify (λ st, set_outbox (outbox st ++ [rq]) st) in
  match net with
  | Responded code => ret code
  | Rejected msg => throw msg
  end.

Definition console_log (text : string) : M unit :=
  modify (λ st, set_console (console st ++ [ConsoleLog text]) st).
Definition console_error (text detail : string) : M unit :=
  modify (λ st, set_console (console st ++ [ConsoleError text detail]) st).

Definition delivery_headers (cronSecret : jsval) : gmap string string :=
  let headers := {[ "Content-Type" := "application/json" ]} in
  if truthy cronSecret
  then <[ "Authorization" := "Bearer " +:+ to_string cronSecret ]> headers
  else headers.

Definition job_callback (id url cronSecret : jsval)
    (timestamp : string) (net : fetch_result) : M unit :=
  try_catch
    (let headers := delivery_headers cronSecret in
     let! response := fetch (HttpRequest "POST" url headers) net in
     console_log ("[" +:+ timestamp +:+ "] Job " +:+ to_string id +:+
                  " executed: " +:+ pretty response))
    (λ message,
     console_error ("[" +:+ timestamp +:+ "] Error executing job " +:+
                    to_string id +:+ ":") message).

(** node-cron fires the task [h]: a running task runs its callback, a
    stopped or unknown one does nothing. *)
Definition fire (h : nat) (timestamp : string) (net : fetch_result) : M unit :=
  let! st := get_state in
  match tasks st !! h with
  | Some t =>
      if t_running t
      then job_callback (t_id t) (t_url t) (t_secret t) timestamp net
      else ret tt
  | None => ret tt
  end.

(** ** HTTP layer (lines 94-201) *)

Record response := Response {
  status : nat;
  payload : json
}.

Definition error_body (msg : string) : json := JObj [("error", JStr msg)].

(** A header or environment variable as a JS value. *)
Definition js_of_option (o : option string) : jsval :=
  from_option VStr VUndefined o.

(** The answer of line 98. *)
Definition unauthorized : response :=
  Response 401 (error_body "Unauthorized - Invalid API Key").

(** [apiKeyMiddleware]; [API_KEY] is [process.env.API_KEY]. *)
Definition apiKeyMiddleware (API_KEY : option string)
    (x_api_key : option string) (next : M response) : M response :=
  let apiKey := js_of_option x_api_key in
  if negb (truthy apiKey) || bool_decide (apiKey ≠ js_of_option API_KEY)
  then ret unauthorized
  else next.

Record body := Body {
  b_id : jsval;
  b_url : jsval;
  b_schedule : jsval;
  b_cronSecret : jsval
}.

(** [app.post("/jobs")] (lines 106-151) *)
Definition post_jobs (w : world) (b : body) : M response :=
  try_catch
    (let id := b_id b in
     let url := b_url b in
     let schedule := b_schedule b in
     let cronSecret := b_cronSecret b in
     if negb (truthy id) || negb (truthy url) || negb (truthy schedule)
     then ret (Response 400 (error_body "Missing required fields"))
     else if negb (cron_validate schedule)
     then ret (Response 400 (error_body "Invalid cron schedule"))
     else if negb (url_ok url)
     then ret (Response 400 (error_body "Invalid URL format"))
     else
       let! jobs := loadJobs in
       let jobs :=
         <[ to_string id :=
              JobRec url schedule cronSecret (VStr (now w)) (VStr "JIMEX-X") ]>
           jobs in
       do! saveJobs w jobs in
       do! startJob id url schedule cronSecret in
       match jobs !! to_string id with
       | Some job =>
           ret (Response 200
                  (JObj [("message", JStr "Job added successfully");
                         ("job", json_object
                                   [("id", id); ("url", url);
                                    ("schedule", schedule);
                                    ("createdAt", createdAt job);
                                    ("createdBy", createdBy job)])]))
       | None =>
           throw "Cannot read properties of undefined (reading 'createdAt')"
       end)
    (λ message, ret (Response 500 (error_body message))).

(** [const { cronSecret, ...safeJob } = job] *)
Definition safeJob (job : jobrec) : list (string * jsval) :=
  filter (λ p, p.1 ≠ "cronSecret") (job_props job).

(** [app.get("/jobs")] (lines 154-167) *)
Definition get_jobs : M response :=
  try_catch
    (let! jobs := loadJobs in
     let sanitizedJobs :=
       foldl (λ (acc : gmap string (list (string * jsval))) p,
                <[ p.1 := safeJob p.2 ]> acc)
             ∅ (map_to_list jobs) in
     ret (Response 200
            (JObj (prod_map id json_object <$> map_to_list sanitizedJobs))))
    (λ message, ret (Response 500 (error_body message))).

(** [app.delete("/jobs/:id")] (lines 170-192) *)
Definition delete_job (w : world) (id : string) : M response :=
  try_catch
    (let! jobs := loadJobs in
     if negb (bool_decide (is_Some (jobs !! id)))
     then ret (Response 404 (error_body "Job not found"))
     else
       do! stopJob (VStr id) in
       let jobs := delete id jobs in
       do! saveJobs w jobs in
       ret (Response 200 (JObj [("message", JStr "Job deleted successfully")])))
    (λ message, ret (Response 500 (error_body message))).

(** [app.get("/health")] (lines 195-201) *)
Definition health (w : world) : M response :=
  let! st := get_state in
  ret (Response 200
         (JObj [("status", JStr "healthy"); ("timestamp", JStr (now w));
                ("activeJobs", JNum (Z.of_nat (size (activeJobs st))))])).

(** The routes of the application. *)
Inductive request :=
  | PostJobs (b : body)
  | GetJobs
  | DeleteJob (id : string)
  | GetHealth.

Definition handler (w : world) (rq : request) : M response :=
  match rq with
  | PostJobs b => post_jobs w b
  | GetJobs => get_jobs
  | DeleteJob id => delete_job w id
  | GetHealth => health w
  end.

Definition protected (rq : request) : bool :=
  match rq with
  | GetHealth => false
  | _ => true
  end.

Definition serve (API_KEY : option string) (w : world)
    (x_api_key : option string) (rq : request) : M response :=
  if protected rq
  then apiKeyMiddleware API_KEY x_api_key (handler w rq)
  else handler w rq.

End Server.

(** ** A reference platform *)

Module Node.

(** [s.split(c)] *)
Fixpoint split_on (c : ascii) (s : string) : list string :=
  match s with
  | EmptyString => [EmptyString]
  | String a s' =>
      if Ascii.eqb a c then EmptyString :: split_on c s'
      else match split_on c s' with
           | w :: ws => String a w :: ws
           | [] => [String a EmptyString]
           end
  end.

Fixpoint number_go (acc : nat) (s : string) : option nat :=
  match s with
  | EmptyString => Some acc
  | String a s' =>
      match Ascii.is_nat a with
      | Some d => number_go (10 * acc + d) s'
      | None => None
      end
  end.

(** A non-empty run of decimal digits. *)
Definition number (s : string) : option nat :=
  if String.eqb s "" then None else number_go 0 s.

Definition in_range (lo hi : nat) (s : string) : bool :=
  match number s with
  | Some n => (lo <=? n) && (n <=? hi)
  | None => false
  end.

(** A literal or a range [a-b] within the bounds of the field. *)
Definition span_ok (lo hi : nat) (s : string) : bool :=
  match split_on "-"%char s with
  | [a] => in_range lo hi a
  | [a; b] =>
      in_range lo hi a && in_range lo hi b &&
      match number a, number b with
      | Some x, Some y => x <=? y
      | _, _ => false
      end
  | _ => false
  end.

(** A literal, [*], a range or a step [*/n]. *)
Definition item_ok (lo hi : nat) (s : string) : bool :=
  match split_on "/"%char s with
  | [base] => String.eqb base "*" || span_ok lo hi base
  | [base; step] =>
      String.eqb base "*" &&
      match number step with
      | Some n => 1 <=? n
      | None => false
      end
  | _ => false
  end.

Definition field_ok (lo hi : nat) (s : string) : bool :=
  forallb (item_ok lo hi) (split_on ","%char s).

(** Modelled from the spec: the schedule validator of section 4.1
    (node-cron's [validate], a library outside the repository): five
    fields, minute 0-59, hour 0-23, day of month 1-31, month 1-12, day of
    week 0-7, each a comma-separated set of literals, [*], ranges and
    steps. *)
Definition validate (e : jsval) : bool :=
  match e with
  | VStr s =>
      match split_on " "%char s with
      | [mi; ho; dm; mo; dw] =>
          field_ok 0 59 mi && field_ok 0 23 ho && field_ok 1 31 dm &&
          field_ok 1 12 mo && field_ok 0 7 dw
      | _ => false
      end
  | _ => false
  end.

Definition is_letter (a : ascii) : bool :=
  let n := nat_of_ascii a in
  ((65 <=? n) && (n <=? 90)) || ((97 <=? n) && (n <=? 122)).

Definition is_scheme_char (a : ascii) : bool :=
  is_letter a || bool_decide (is_Some (Ascii.is_nat a)) ||
  Ascii.eqb a "+"%char || Ascii.eqb a "-"%char || Ascii.eqb a "."%char.

(** Modelled from the spec: "a well-formed absolute URL" (the WHATWG [URL]
    constructor, outside the repository), read as a scheme, a colon and a
    non-empty remainder; the argument is converted to a string first. *)
Definition absolute_url (u : jsval) : bool :=
  match split_on ":"%char (to_string u) with
  | String a scheme :: rest :: more =>
      is_letter a &&
      forallb is_scheme_char (String.list_ascii_of_string scheme) &&
      negb (String.eqb rest "" && bool_decide (more = []))
  | _ => false
  end.

(** Modelled from the spec: an expression that does not parse is never
    scheduled (section 3); [cron.schedule] throws on it. *)
Definition schedule_error (e : jsval) : option string :=
  if validate e then None
  else Some (to_string e +:+ " is a invalid expression").

Definition platform : Platform :=
  {| cron_validate := validate;
     cron_schedule_error := schedule_error;
     url_ok := absolute_url |}.

End Node.

(** ** Observations on the state *)

(** The job map the file holds, as [loadJobs] reads it. *)
Definition persisted (st : state) : jobmap :=
  match file st with
  | Some doc => parse_jobs doc
  | None => ∅
  end.

(** The task [h] exists, runs, and fires the job [id]. *)
Definition is_live (st : state) (id : jsval) (h : nat) : bool :=
  match tasks st !! h with
  | Some t => t_running t && bool_decide (t_id t = id)
  | None => false
  end.

(** The handles of the live timers of [id]. *)
Definition live_handles (st : state) (id : jsval) : list nat :=
  filter (λ h, is_live st id h = true) (seq 0 (length (tasks st))).

(** The task registered for [id] in [activeJobs]. *)
Definition registered (st : state) (id : jsval) : option task :=
  activeJobs st !! id ≫= λ h, tasks st !! h.


(** ** Sequences of scheduler operations *)

Inductive sched_op :=
  | Start (id url schedule cronSecret : jsval)
  | Delete (id : jsval).


Section Runs.
Context `{Platform}.

Definition run_op (st : state) (op : sched_op) : state :=
  match op with
  | Start id url schedule cronSecret =>
      exec (startJob id url schedule cronSecret) st
  | Delete id => exec (stopJob id) st
  end.

Definition run_ops (ops : list sched_op) (st : state) : state :=
  foldl run_op st ops.



(** What happens to a running server: a request arrives, or node-cron
    fires a task. *)
Inductive event :=
  | Arrives (x_api_key : option string) (w : world) (rq : request)
  | Fires (h : nat) (timestamp : string) (net : fetch_result).

Definition step (API_KEY : option string) (st : state) (ev : event) : state :=
  match ev with
  | Arrives x_api_key w rq => exec (serve API_KEY w x_api_key rq) st
  | Fires h timestamp net => exec (fire h timestamp net) st
  end.



End Runs.

(** ** Requests seen by [app.post] *)

Section Bodies.
Context `{Platform}.

(** The three validations of lines 110-124 pass. *)
Definition valid_body (b : body) : bool :=
  truthy (b_id b) && truthy (b_url b) && truthy (b_schedule b) &&
  cron_validate (b_schedule b) && url_ok (b_url b).

End Bodies.

(** The record of lines 127-133. *)
Definition new_job (w : world) (b : body) : jobrec :=
  JobRec (b_url b) (b_schedule b) (b_cronSecret b) (VStr (now w))
    (VStr "JIMEX-X").

(** The body of the success response (lines 138-147). *)
Definition added_body (w : world) (b : body) : json :=
  JObj [("message", JStr "Job added successfully");
        ("job", json_object
                  [("id", b_id b); ("url", b_url b);
                   ("schedule", b_schedule b);
                   ("createdAt", VStr (now w));
                   ("createdBy", VStr "JIMEX-X")])].

(** The calls [initializeJobs] makes for the entries of a job map. *)
Definition replay (entries : list (string * jobrec)) : list sched_op :=
  (λ p, Start (VStr p.1) (url p.2) (schedule p.2) (cronSecret p.2))
    <$> entries.


(** ** Invariant of the scheduler *)

(** Every running task is the one [activeJobs] holds for its id, and every
    entry of [activeJobs] points to a task of that id. *)
Definition sched_inv (st : state) : Prop :=
  (∀ h t, tasks st !! h = Some t → t_running t = true →
          activeJobs st !! t_id t = Some h) ∧
  (∀ id h, activeJobs st !! id = Some h →
           ∃ t, tasks st !! h = Some t ∧ t_id t = id).

(** The state after lines 62-64 of [startJob]. *)
Definition stop_existing (id : jsval) (st : state) : state :=
  match activeJobs st !! id with
  | Some h => set_tasks (alter stop h (tasks st)) st
  | None => st
  end.

(** ** Self-ping and launch (lines 12 and 203-225) *)

Definition PING_INTERVAL : Z := (14 * 60 * 1000)%Z.

(** [process.env.PORT || 3000] *)
Definition PORT (env_PORT : option string) : jsval :=
  let port := js_of_option env_PORT in
  if truthy port then port else VNum 3000%Z.

(** [process.env.SERVER_URL || `http://localhost:${PORT}`] *)
Definition serverUrl (SERVER_URL env_PORT : option string) : string :=
  let configured := js_of_option SERVER_URL in
  if truthy configured then to_string configured
  else "http://localhost:" +:+ to_string (PORT env_PORT).

(** The callback [setupSelfPing] gives to [setInterval]; [fetch] without
    options sends a GET without headers of the caller's. *)
Definition self_ping (SERVER_URL env_PORT : option string)
    (timestamp : string) (net : fetch_result) : M unit :=
  try_catch
    (let serverUrl := serverUrl SERVER_URL env_PORT in
     let! response :=
       fetch (HttpRequest "GET" (VStr (serverUrl +:+ "/health")) ∅) net in
     console_log ("[" +:+ timestamp +:+ "] Self-ping successful"))
    (λ message,
     console_error ("[" +:+ timestamp +:+ "] Self-ping failed:") message).

Definition returned {A} (o : outcome A) : bool :=
  match o with
  | Ret _ => true
  | Throw _ => false
  end.

(** What happens to a launched server: an [event], or the interval of
    [setupSelfPing] elapses. *)
Inductive server_event :=
  | Handled (ev : event)
  | SelfPing (timestamp : string) (net : fetch_result).

Section Launch.
Context `{Platform}.

(** The callback of [app.listen] up to [setupSelfPing()], which it reaches
    only when [initializeJobs] has returned. *)
Definition listen (env_PORT : option string) : M unit :=
  do! console_log ("Server running on port " +:+ to_string (PORT env_PORT)) in
  initializeJobs.

(** [pinging]: [setupSelfPing] has been called. *)
Definition server_step (API_KEY SERVER_URL env_PORT : option string)
    (pinging : bool) (st : state) (sev : server_event) : state :=
  match sev with
  | Handled ev => step API_KEY st ev
  | SelfPing timestamp net =>
      if pinging
      then exec (self_ping SERVER_URL env_PORT timestamp net) st
      else st
  end.

Definition server_run (API_KEY SERVER_URL env_PORT : option string)
    (f : option json) (sevs : list server_event) : state :=
  let launch := listen env_PORT (boot f) in
  foldl (server_step API_KEY SERVER_URL env_PORT (returned launch.1))
    launch.2 sevs.

(** [cron.schedule] accepts what [cron.validate] accepts. *)
Definition validate_sound : Prop :=
  ∀ e, cron_validate e = true → cron_schedule_error e = None.

(** [cron.schedule] accepts every schedule of the jobs file. *)
Definition accepted_file (f : option json) : Prop :=
  map_Forall (λ _ r, cron_schedule_error (schedule r) = None)
    (persisted (boot f)).

End Launch.

(** ** Further observations *)

(** The task [h] exists and runs. *)
Definition running_at (st : state) (h : nat) : bool :=
  match tasks st !! h with
  | Some t => t_running t
  | None => false
  end.

(** The handles of all running tasks. *)
Definition running_handles (st : state) : list nat :=
  filter (λ h, running_at st h = true) (seq 0 (length (tasks st))).

(** Every entry of [activeJobs] is a running task. *)
Definition all_running (st : state) : Prop :=
  ∀ id h, activeJobs st !! id = Some h → is_live st id h = true.





(** A record as [app.post] writes it. *)
Definition posted_record `{Platform} (r : jobrec) : Prop :=
  truthy (url r) = true ∧ url_ok (url r) = true ∧
  truthy (schedule r) = true ∧ cron_validate (schedule r) = true ∧
  (∃ timestamp, createdAt r = VStr timestamp) ∧
  createdBy r = VStr "JIMEX-X".


(** * Supporting lemmas *)

(** The examples of section 8 of the specification. *)
Example validate_every_minute : Node.validate (VStr "* * * * *") = true.
Proof. reflexivity. Qed.
Example validate_minute_99 : Node.validate (VStr "99 * * * *") = false.
Proof. reflexivity. Qed.
Example validate_three_fields : Node.validate (VStr "* * *") = false.
Proof. reflexivity. Qed.
Example validate_sets : Node.validate (VStr "*/5 0-6,12 1 1-12 1,3,5") = true.
Proof. reflexivity. Qed.
Example absolute_url_http :
  Node.absolute_url (VStr "https://example.com/hook") = true.
Proof. reflexivity. Qed.
Example absolute_url_relative : Node.absolute_url (VStr "/hook") = false.
Proof. reflexivity. Qed.

(** ** The scheduler, step by step *)

Section SchedulerFacts.
Context `{Platform}.

Lemma startJob_run id u e c st :
  startJob id u e c st =
  let st1 := stop_existing id st in
  match cron_schedule_error e with
  | Some msg => (Throw msg, st1)
  | None =>
      (Ret tt,
       set_activeJobs (<[id := length (tasks st1)]> (activeJobs st1))
         (set_tasks (tasks st1 ++ [Task e id u c true]) st1))
  end.
Proof.
  unfold startJob, bind, get_state, stop_existing, cron_schedule, task_stop,
    modify, ret, throw.
  destruct (activeJobs st !! id); simpl;
    destruct (cron_schedule_error e); reflexivity.
Qed.

Lemma stopJob_run id st :
  stopJob id st =
  (Ret tt,
   match activeJobs st !! id with
   | Some h =>
       set_activeJobs (delete id (activeJobs st))
         (set_tasks (alter stop h (tasks st)) st)
   | None => st
   end).
Proof.
  unfold stopJob, bind, get_state, task_stop, modify, ret.
  destruct (activeJobs st !! id); reflexivity.
Qed.


Lemma stop_existing_activeJobs id st :
  activeJobs (stop_existing id st) = activeJobs st.
Proof. unfold stop_existing. by destruct (activeJobs st !! id). Qed.

Lemma stop_existing_file id st : file (stop_existing id st) = file st.
Proof. unfold stop_existing. by destruct (activeJobs st !! id). Qed.

Lemma lookup_alter_stop (ts : list task) h k t :
  alter stop h ts !! k = Some t →
  ∃ t0, ts !! k = Some t0 ∧ t_id t = t_id t0 ∧
        (t_running t = true → k ≠ h ∧ t = t0).
Proof.
  destruct (decide (h = k)) as [->|Hne].
  - rewrite list_lookup_alter_eq. destruct (ts !! k) as [t0|]; [|done].
    intros [= <-]. exists t0. split_and!; [done|done|]. by simpl.
  - rewrite list_lookup_alter_ne by done. intros Ht. exists t.
    split_and!; [done|done|]. intros _. split; [congruence|done].
Qed.

Lemma stop_existing_inv id st : sched_inv st → sched_inv (stop_existing id st).
Proof.
  intros [I1 I2]. unfold stop_existing.
  destruct (activeJobs st !! id) as [h|] eqn:Hid; [|by split].
  split; simpl.
  - intros k t Hk Hrun.
    apply lookup_alter_stop in Hk as (t0 & Hk & Hidt & Hsame).
    destruct (Hsame Hrun) as [_ ->]. by apply I1.
  - intros id' k Hk. destruct (I2 _ _ Hk) as (t0 & Ht0 & <-).
    destruct (decide (h = k)) as [->|Hne].
    + exists (stop t0). by rewrite list_lookup_alter_eq, Ht0.
    + exists t0. by rewrite list_lookup_alter_ne.
Qed.

(** After lines 62-64 no task of [id] is running. *)
Lemma stop_existing_quiet id st h t :
  sched_inv st → tasks (stop_existing id st) !! h = Some t →
  t_id t = id → t_running t = false.
Proof.
  intros [I1 I2] Hh Hid. unfold stop_existing in Hh.
  destruct (t_running t) eqn:Hrun; [|done]. exfalso.
  destruct (activeJobs st !! id) as [k|] eqn:Hk; simpl in Hh.
  - apply lookup_alter_stop in Hh as (t0 & Hh & _ & Hsame).
    destruct (Hsame Hrun) as [Hne ->].
    pose proof (I1 _ _ Hh Hrun) as Hreg. rewrite Hid in Hreg. congruence.
  - pose proof (I1 _ _ Hh Hrun) as Hreg. rewrite Hid in Hreg. congruence.
Qed.


Lemma startJob_inv id u e c st :
  sched_inv st → sched_inv (exec (startJob id u e c) st).
Proof.
  intros Hinv. unfold exec. rewrite startJob_run. simpl.
  pose proof (stop_existing_inv id st Hinv) as [I1 I2].
  pose proof (stop_existing_quiet id st) as Hq.
  destruct (cron_schedule_error e); simpl; [by split|].
  set (st1 := stop_existing id st) in *.
  split; simpl.
  - intros h t Hh Hrun.
    apply lookup_app_Some in Hh as [Hh|[Hlen Hh]].
    + destruct (decide (t_id t = id)) as [Heq|Hne].
      * by rewrite (Hq h t Hinv Hh Heq) in Hrun.
      * rewrite lookup_insert_ne by done. by apply I1.
    + apply list_lookup_singleton_Some in Hh as [Hz <-]. simpl.
      rewrite lookup_insert_eq. f_equal. lia.
  - intros id' h Hh. destruct (decide (id = id')) as [<-|Hne].
    + rewrite lookup_insert_eq in Hh. injection Hh as <-.
      exists (Task e id u c true). split; [|done].
      by rewrite lookup_app_r, Nat.sub_diag.
    + rewrite lookup_insert_ne in Hh by done.
      destruct (I2 _ _ Hh) as (t & Ht & Hid). exists t. split; [|done].
      by apply lookup_app_l_Some.
Qed.

Lemma stopJob_inv id st : sched_inv st → sched_inv (exec (stopJob id) st).
Proof.
  intros Hinv. unfold exec. rewrite stopJob_run. simpl.
  pose proof (stop_existing_inv id st Hinv) as [I1 I2].
  pose proof (stop_existing_quiet id st) as Hq.
  unfold stop_existing in *.
  destruct (activeJobs st !! id) as [k|] eqn:Hk; [|done].
  split; simpl in *.
  - intros h t Hh Hrun. destruct (decide (t_id t = id)) as [Heq|Hne].
    + by rewrite (Hq h t Hinv Hh Heq) in Hrun.
    + rewrite lookup_delete_ne by done. by apply I1.
  - intros id' h Hh. apply lookup_delete_Some in Hh as [Hne Hh]. by apply I2.
Qed.


End SchedulerFacts.

(** ** One live timer per id *)

Lemma list_single_elem {A} (l : list A) (x : A) :
  NoDup l → (∀ y, y ∈ l ↔ y = x) → l = [x].
Proof.
  intros Hnd Hel. destruct l as [|a l].
  - exfalso. eapply not_elem_of_nil. apply Hel. reflexivity.
  - assert (a = x) as -> by (apply Hel; left).
    apply NoDup_cons in Hnd as [Hnot _]. f_equal.
    destruct l as [|b l]; [done|]. exfalso.
    assert (b = x) as -> by (apply Hel; right; left).
    apply Hnot. left.
Qed.

Section OneTimer.
Context `{Platform}.

Lemma is_live_lt st id h : is_live st id h = true → h < length (tasks st).
Proof.
  unfold is_live. destruct (tasks st !! h) eqn:Hh; [|done].
  intros _. by eapply lookup_lt_Some.
Qed.

Lemma live_handles_elem st id h :
  h ∈ live_handles st id ↔ is_live st id h = true.
Proof.
  unfold live_handles. rewrite list_elem_of_filter, elem_of_seq.
  split; [by intros [? _]|]. intros Hl. split; [done|].
  apply is_live_lt in Hl. lia.
Qed.

(** In a state that satisfies the invariant the live timers of an id are
    the registered one, if it still runs, and no other. *)
Lemma live_handles_registered st id :
  sched_inv st →
  live_handles st id =
  match activeJobs st !! id with
  | Some h => if is_live st id h then [h] else []
  | None => []
  end.
Proof.
  intros [I1 I2].
  assert (∀ h, is_live st id h = true → activeJobs st !! id = Some h) as Hreg.
  { intros h. unfold is_live. destruct (tasks st !! h) as [t|] eqn:Ht; [|done].
    intros [Hrun Hid%bool_decide_eq_true]%andb_true_iff. subst id. by apply I1. }
  destruct (activeJobs st !! id) as [h|] eqn:Hid.
  - destruct (is_live st id h) eqn:Hl.
    + apply list_single_elem.
      { unfold live_handles. apply NoDup_filter, NoDup_seq. }
      intros k. rewrite live_handles_elem. split; [|by intros ->].
      intros Hk%Hreg. congruence.
    + apply elem_of_nil_inv. intros k Hk%live_handles_elem.
      pose proof (Hreg _ Hk). congruence.
  - apply elem_of_nil_inv. intros k Hk%live_handles_elem.
    pose proof (Hreg _ Hk). congruence.
Qed.

Lemma registered_stop_existing_same id st :
  registered (stop_existing id st) id = stop <$> registered st id.
Proof.
  unfold registered, stop_existing.
  destruct (activeJobs st !! id) as [h|] eqn:Hid; simpl; rewrite Hid; simpl;
    [|done].
  by rewrite list_lookup_alter_eq.
Qed.


Lemma registered_startJob_same id u e c st :
  registered (exec (startJob id u e c) st) id =
  match cron_schedule_error e with
  | None => Some (Task e id u c true)
  | Some _ => stop <$> registered st id
  end.
Proof.
  unfold exec. rewrite startJob_run. simpl.
  destruct (cron_schedule_error e); simpl.
  - apply registered_stop_existing_same.
  - unfold registered. simpl. rewrite lookup_insert_eq. simpl.
    by rewrite lookup_app_r, Nat.sub_diag.
Qed.




End OneTimer.

(** ** Delivery *)

Section Delivery.

Lemma job_callback_run id u c ts net st :
  job_callback id u c ts net st =
  (Ret tt,
   set_console
     (console st ++
      [match net with
       | Responded code =>
           ConsoleLog ("[" +:+ ts +:+ "] Job " +:+ to_string id +:+
                       " executed: " +:+ pretty code)
       | Rejected msg =>
           ConsoleError ("[" +:+ ts +:+ "] Error executing job " +:+
                         to_string id +:+ ":") msg
       end])
     (set_outbox (outbox st ++ [HttpRequest "POST" u (delivery_headers c)])
        st)).
Proof. by destruct net. Qed.

Lemma fire_run h ts net st :
  fire h ts net st =
  match tasks st !! h with
  | Some t =>
      if t_running t
      then job_callback (t_id t) (t_url t) (t_secret t) ts net st
      else (Ret tt, st)
  | None => (Ret tt, st)
  end.
Proof.
  unfold fire, bind, get_state. destruct (tasks st !! h) as [t|]; [|done].
  by destruct (t_running t).
Qed.

(** A fire touches the outbox and the console only. *)
Lemma fire_frame h ts net st :
  eval (fire h ts net) st = Ret tt ∧
  tasks (exec (fire h ts net) st) = tasks st ∧
  activeJobs (exec (fire h ts net) st) = activeJobs st ∧
  file (exec (fire h ts net) st) = file st.
Proof.
  unfold eval, exec. rewrite fire_run.
  destruct (tasks st !! h) as [t|]; [|done].
  destruct (t_running t); [|done]. by rewrite job_callback_run.
Qed.

Lemma fire_outbox h t ts net st :
  tasks st !! h = Some t → t_running t = true →
  outbox (exec (fire h ts net) st) =
  outbox st ++ [HttpRequest "POST" (t_url t) (delivery_headers (t_secret t))].
Proof.
  intros Ht Hrun. unfold exec. rewrite fire_run, Ht, Hrun.
  by rewrite job_callback_run.
Qed.

Lemma delivery_headers_content_type c :
  delivery_headers c !! "Content-Type" = Some "application/json".
Proof.
  unfold delivery_headers. destruct (truthy c).
  - rewrite lookup_insert_ne by done. apply lookup_singleton_eq.
  - apply lookup_singleton_eq.
Qed.

Lemma delivery_headers_authorization c :
  delivery_headers c !! "Authorization" =
  if truthy c then Some ("Bearer " +:+ to_string c) else None.
Proof.
  unfold delivery_headers. destruct (truthy c).
  - apply lookup_insert_eq.
  - by rewrite lookup_singleton_ne.
Qed.

Lemma delivery_headers_other c k :
  k ≠ "Content-Type" → k ≠ "Authorization" → delivery_headers c !! k = None.
Proof.
  intros H1 H2. unfold delivery_headers. destruct (truthy c).
  - rewrite lookup_insert_ne by done. by rewrite lookup_singleton_ne.
  - by rewrite lookup_singleton_ne.
Qed.

Lemma truthy_string s : truthy (VStr s) = true ↔ s ≠ "".
Proof.
  simpl. rewrite negb_true_iff. split.
  - intros Hs ->. by rewrite String.eqb_refl in Hs.
  - intros Hs. by apply String.eqb_neq.
Qed.

End Delivery.

(** ** JSON documents and job maps *)

Lemma assoc_last_None {A} k (l : list (string * A)) :
  k ∉ l.*1 → assoc_last k l = None.
Proof.
  induction l as [|[k' v] l IH]; [done|]. simpl.
  intros Hk. apply not_elem_of_cons in Hk as [Hne Hk].
  rewrite (IH Hk). by rewrite decide_False.
Qed.


Lemma to_json_of_json v : from_option of_json VUndefined (to_json v) = v.
Proof. by destruct v. Qed.

Lemma assoc_last_cons_ne {A} k k' (v : A) l :
  k' ≠ k → assoc_last k ((k', v) :: l) = assoc_last k l.
Proof.
  intros Hne. simpl. destruct (assoc_last k l); [done|].
  by rewrite decide_False.
Qed.

Lemma assoc_last_json_object (props : list (string * jsval)) k :
  NoDup props.*1 →
  assoc_last k (omap (λ p, pair p.1 <$> to_json p.2) props) =
  assoc_last k props ≫= to_json.
Proof.
  induction props as [|[k' v] props IH]; [done|].
  rewrite fmap_cons. intros [Hk' Hnd]%NoDup_cons. specialize (IH Hnd).
  cbn [fst] in Hk'. cbn [omap list_omap fst snd].
  destruct (decide (k' = k)) as [->|Hne].
  - pose proof (assoc_last_None k props Hk') as Hnone.
    rewrite Hnone in IH. cbn [assoc_last]. rewrite Hnone.
    rewrite decide_True by done.
    change (Some v ≫= to_json) with (to_json v).
    destruct (to_json v) as [j|]; simpl; rewrite IH; simpl; [|done].
    by rewrite decide_True.
  - rewrite assoc_last_cons_ne by done. rewrite <- IH.
    destruct (to_json v) as [j|]; simpl; [|done].
    destruct (assoc_last k _); [done|]. by rewrite decide_False.
Qed.

Lemma json_object_fields (props : list (string * jsval)) k :
  NoDup props.*1 →
  json_field k (json_object props) =
  from_option id VUndefined (assoc_last k props).
Proof.
  intros Hnd. unfold json_field, json_object, json_get.
  rewrite assoc_last_json_object by done.
  destruct (assoc_last k props) as [v|]; [|done]. apply to_json_of_json.
Qed.

Lemma json_object_keys (props : list (string * jsval)) k :
  k ∈ json_keys (json_object props) → k ∈ props.*1.
Proof.
  unfold json_object. simpl.
  induction props as [|[k' v] props IH]; [done|]. simpl.
  destruct (to_json v); simpl.
  - intros [->|Hk]%elem_of_cons; [left|right; by apply IH].
  - intros Hk. right. by apply IH.
Qed.

Lemma json_job_job_json r : json_job (job_json r) = r.
Proof.
  destruct r as [u e c a b]. unfold json_job, job_json, job_props.
  rewrite !json_object_fields by (by compute_done). done.
Qed.

Lemma foldl_insert_fmap {A B} (g : A → B) (m : gmap string A) :
  foldl (λ (acc : gmap string B) p, <[p.1 := g p.2]> acc) ∅ (map_to_list m)
  = g <$> m.
Proof.
  assert (∀ (l : list (string * A)) (acc : gmap string B),
            foldl (λ (acc : gmap string B) p, <[p.1 := g p.2]> acc) acc l =
            foldr (λ p acc, <[p.1 := p.2]> acc) acc
              (prod_map id g <$> reverse l)) as Hrev.
  { induction l as [|p l IH]; intros acc; [done|].
    simpl. rewrite IH, reverse_cons, fmap_app, foldr_app. done. }
  rewrite Hrev.
  change (foldr _ ∅ ?l) with (list_to_map l : gmap string B).
  rewrite list_to_map_fmap.
  rewrite (list_to_map_proper (reverse (map_to_list m)) (map_to_list m)).
  - by rewrite list_to_map_to_list.
  - rewrite fmap_reverse, reverse_Permutation. apply NoDup_fst_map_to_list.
  - apply reverse_Permutation.
Qed.

(** Saving a job map and parsing the file gives the map back. *)
Lemma parse_stringify_jobs (jobs : jobmap) :
  parse_jobs (stringify_jobs jobs) = jobs.
Proof.
  unfold parse_jobs, stringify_jobs.
  transitivity (foldl (λ (acc : jobmap) (p : string * jobrec),
                         <[p.1 := json_job (job_json p.2)]> acc)
                  ∅ (map_to_list jobs)).
  - generalize (∅ : jobmap). induction (map_to_list jobs) as [|p l IH];
      intros acc; [done|]. simpl. apply IH.
  - rewrite (foldl_insert_fmap (λ r, json_job (job_json r))).
    rewrite <- (map_fmap_id jobs) at 2. apply map_fmap_ext.
    intros k r _. apply json_job_job_json.
Qed.


(** ** The handlers, case by case *)

Section Handlers.
Context `{Platform}.

Lemma loadJobs_run st : loadJobs st = (Ret (persisted st), st).
Proof. unfold loadJobs, persisted. by destruct (file st). Qed.

Lemma startJob_file id u e c st :
  file (exec (startJob id u e c) st) = file st.
Proof.
  unfold exec. rewrite startJob_run. simpl.
  destruct (cron_schedule_error e); simpl; apply stop_existing_file.
Qed.

Lemma startJob_eval id u e c st :
  eval (startJob id u e c) st =
  match cron_schedule_error e with
  | Some msg => Throw msg
  | None => Ret tt
  end.
Proof.
  unfold eval. rewrite startJob_run. simpl.
  by destruct (cron_schedule_error e).
Qed.

Lemma valid_body_false b :
  valid_body b = false ↔
  (negb (truthy (b_id b)) || negb (truthy (b_url b))
   || negb (truthy (b_schedule b))) = true ∨
  cron_validate (b_schedule b) = false ∨ url_ok (b_url b) = false.
Proof.
  unfold valid_body.
  rewrite !andb_false_iff, !orb_true_iff, !negb_true_iff. tauto.
Qed.

(** A request that fails a validation is answered 400 and changes nothing. *)
Lemma post_jobs_invalid w b st :
  valid_body b = false →
  post_jobs w b st =
  (Ret (Response 400
          (error_body
             (if negb (truthy (b_id b)) || negb (truthy (b_url b))
                 || negb (truthy (b_schedule b))
              then "Missing required fields"
              else if negb (cron_validate (b_schedule b))
              then "Invalid cron schedule"
              else "Invalid URL format"))), st).
Proof.
  unfold valid_body, post_jobs, try_catch.
  destruct (truthy (b_id b)), (truthy (b_url b)), (truthy (b_schedule b));
    simpl; try done.
  destruct (cron_validate (b_schedule b)); simpl; [|done].
  by destruct (url_ok (b_url b)).
Qed.

(** A request that passes them is saved, then scheduled. *)
Lemma post_jobs_valid w b st :
  valid_body b = true →
  post_jobs w b st =
  match write_error w with
  | Some msg => (Ret (Response 500 (error_body msg)), st)
  | None =>
      let jobs := <[to_string (b_id b) := new_job w b]> (persisted st) in
      let st1 := set_file (Some (stringify_jobs jobs)) st in
      let st2 := exec (startJob (b_id b) (b_url b) (b_schedule b)
                         (b_cronSecret b)) st1 in
      match cron_schedule_error (b_schedule b) with
      | Some msg => (Ret (Response 500 (error_body msg)), st2)
      | None => (Ret (Response 200 (added_body w b)), st2)
      end
  end.
Proof.
  unfold valid_body. rewrite !andb_true_iff.
  intros [[[[Hid Hurl] Hsch] Hcron] Hok].
  unfold post_jobs, try_catch, new_job, added_body.
  rewrite Hid, Hurl, Hsch, Hcron, Hok. simpl.
  unfold bind at 1. rewrite loadJobs_run.
  unfold bind at 1. unfold saveJobs.
  destruct (write_error w) as [msg|]; [done|].
  unfold modify at 1. unfold bind at 1.
  unfold exec. rewrite startJob_run. simpl.
  destruct (cron_schedule_error (b_schedule b)); simpl; [done|].
  unfold bind. simpl. rewrite lookup_insert_eq. done.
Qed.

Lemma get_jobs_run st :
  get_jobs st =
  (Ret (Response 200
          (JObj (prod_map id json_object <$>
                 map_to_list (safeJob <$> persisted st)))), st).
Proof.
  unfold get_jobs, try_catch, bind. rewrite loadJobs_run.
  by rewrite (foldl_insert_fmap safeJob).
Qed.

Lemma delete_job_run w id st :
  delete_job w id st =
  match persisted st !! id with
  | None => (Ret (Response 404 (error_body "Job not found")), st)
  | Some _ =>
      let st1 := exec (stopJob (VStr id)) st in
      match write_error w with
      | Some msg => (Ret (Response 500 (error_body msg)), st1)
      | None =>
          (Ret (Response 200
                  (JObj [("message", JStr "Job deleted successfully")])),
           set_file (Some (stringify_jobs (delete id (persisted st)))) st1)
      end
  end.
Proof.
  unfold delete_job, try_catch. unfold bind at 1. rewrite loadJobs_run.
  destruct (persisted st !! id) as [r|] eqn:Hid.
  - rewrite bool_decide_eq_true_2 by eauto. simpl.
    unfold bind at 1. unfold exec. rewrite stopJob_run. simpl.
    unfold bind, saveJobs. by destruct (write_error w).
  - rewrite bool_decide_eq_false_2 by (by intros [? ?]). done.
Qed.

Lemma persisted_set_file jobs st :
  persisted (set_file (Some (stringify_jobs jobs)) st) = jobs.
Proof. unfold persisted. simpl. apply parse_stringify_jobs. Qed.

(** A handler always answers, with one of four status codes. *)
Lemma handler_status w rq st :
  ∃ r, eval (handler w rq) st = Ret r ∧ status r ∈ [200; 400; 404; 500].
Proof.
  unfold eval. destruct rq as [b| |id|]; simpl.
  - destruct (valid_body b) eqn:Hv.
    + rewrite post_jobs_valid by done.
      destruct (write_error w); simpl; [eexists; split; [done|compute_done]|].
      destruct (cron_schedule_error (b_schedule b)); simpl;
        eexists; (split; [done|compute_done]).
    + rewrite post_jobs_invalid by done. eexists; split; [done|compute_done].
  - rewrite get_jobs_run. eexists; split; [done|compute_done].
  - rewrite delete_job_run. destruct (persisted st !! id); simpl;
      [destruct (write_error w)|]; simpl; eexists; (split; [done|compute_done]).
  - eexists; split; [done|compute_done].
Qed.

End Handlers.

(** ** Listing *)




Lemma truthy_to_json v : truthy v = true → is_Some (to_json v).
Proof. destruct v; simpl; eauto. by intros. Qed.

(** ** Persistence and replay at start-up *)

Section Replay.
Context `{Platform}.

Lemma forEach_startJob_run (l : list (string * jobrec)) st :
  Forall (λ p, cron_schedule_error (schedule p.2) = None) l →
  forEach (λ p : string * jobrec,
             startJob (VStr p.1) (url p.2) (schedule p.2) (cronSecret p.2))
    l st = (Ret tt, run_ops (replay l) st).
Proof.
  intros Hok. revert st. induction Hok as [|p l Hp _ IH]; intros st; [done|].
  simpl. unfold bind.
  pose proof (startJob_eval (VStr p.1) (url p.2) (schedule p.2)
                (cronSecret p.2) st) as Hev.
  rewrite Hp in Hev. unfold eval, exec in *.
  destruct (startJob _ _ _ _ st) as [o st1]. simpl in *. subst o. apply IH.
Qed.




End Replay.


(** ** The API key *)

Lemma js_of_option_inj o1 o2 : js_of_option o1 = js_of_option o2 → o1 = o2.
Proof. destruct o1, o2; simpl; congruence. Qed.

Lemma apiKey_check (API_KEY x_api_key : option string) :
  negb (truthy (js_of_option x_api_key))
  || bool_decide (js_of_option x_api_key ≠ js_of_option API_KEY) = true ↔
  x_api_key = None ∨ x_api_key = Some "" ∨ x_api_key ≠ API_KEY.
Proof.
  rewrite orb_true_iff, negb_true_iff, bool_decide_eq_true. split.
  - intros [Hf|Hne].
    + destruct x_api_key as [s|]; [|by left]. right. left.
      destruct (decide (s = "")) as [->|Hs]; [done|].
      apply truthy_string in Hs. simpl in *. congruence.
    + right. right. intros ->. by apply Hne.
  - intros [->|[->|Hne]]; [by left|by left|].
    right. intros Heq. by apply Hne, js_of_option_inj.
Qed.

(** ** The invariant on a running server *)

Section ServerInvariant.
Context `{Platform}.

Lemma sched_inv_same st st' :
  tasks st' = tasks st → activeJobs st' = activeJobs st →
  sched_inv st → sched_inv st'.
Proof. unfold sched_inv. by intros -> ->. Qed.

Lemma forEach_startJob_inv (l : list (string * jobrec)) st :
  sched_inv st →
  sched_inv
    (exec (forEach (λ p : string * jobrec,
                      startJob (VStr p.1) (url p.2) (schedule p.2)
                        (cronSecret p.2)) l) st).
Proof.
  revert st. induction l as [|p l IH]; intros st Hinv; [done|].
  pose proof (startJob_inv (VStr p.1) (url p.2) (schedule p.2)
                (cronSecret p.2) st Hinv) as Hstep.
  unfold exec in *. simpl. unfold bind.
  destruct (startJob _ _ _ _ st) as [[[]|msg] st1]; simpl in *; [|done].
  by apply IH.
Qed.





Lemma forEach_startJob_file (l : list (string * jobrec)) st :
  file (exec (forEach (λ p : string * jobrec,
                         startJob (VStr p.1) (url p.2) (schedule p.2)
                           (cronSecret p.2)) l) st) = file st.
Proof.
  revert st. induction l as [|p l IH]; intros st; [done|].
  pose proof (startJob_file (VStr p.1) (url p.2) (schedule p.2)
                (cronSecret p.2) st) as Hstep.
  unfold exec in *. simpl. unfold bind.
  destruct (startJob _ _ _ _ st) as [[[]|msg] st1]; simpl in *; [|done].
  by rewrite IH.
Qed.

Lemma persisted_file st st' : file st' = file st → persisted st' = persisted st.
Proof. unfold persisted. by intros ->. Qed.





End ServerInvariant.

(** * The properties of the specification *)

(** ** One live timer per job id *)



(** ** The listing hides the secret *)



(** ** Removing an unknown job *)




(** ** Validation of a new job *)



(** ** A schedule that does not parse *)

(** The sentence of the specification fails on [startJob]: called for an
    id whose timer is running, with a schedule [cron.validate] refuses,
    [startJob] has stopped that timer by the time [cron.schedule] throws. *)
Lemma startJob_stops_timer_before_parsing :
  let a := VStr "a" in
  let u := VStr "https://example.com/hook" in
  let bad := VStr "99 * * * *" in
  let st :=
    exec (startJob (H := Node.platform) a u (VStr "0 * * * *") VUndefined)
      (boot None) in
  let st' := exec (startJob (H := Node.platform) a u bad VUndefined) st in
  ¬ (cron_validate (Platform := Node.platform) bad = false →
     activeJobs st !! a = Some 0 →
     is_live st a 0 = true →
     tasks st' !! 0 = tasks st !! 0).
Proof.
  intros a u bad st st' Hsaid.
  specialize (Hsaid eq_refl eq_refl eq_refl). discriminate Hsaid.
Qed.

(** C5 (amended).  The schedule is validated by POST /jobs, not by
    [startJob]: a POST /jobs whose schedule fails [cron.validate] is
    answered 400 before [startJob] is called, so every timer, running or
    not, and both stores are untouched and the caller is told.  [startJob]
    itself validates nothing: it stops the timer registered for the id
    first, and an error of [cron.schedule] is thrown on to its caller. *)
Theorem invalid_schedule_stopped_at_post `{Platform} (w : world) (b : body)
    (st : state) :
  cron_validate (b_schedule b) = false →
  (∃ msg, post_jobs w b st = (Ret (Response 400 (error_body msg)), st)) ∧
  (∀ id u c h t,
     activeJobs st !! id = Some h → tasks st !! h = Some t →
     tasks (exec (startJob id u (b_schedule b) c) st) !! h = Some (stop t)) ∧
  (∀ id u c msg,
     cron_schedule_error (b_schedule b) = Some msg →
     eval (startJob id u (b_schedule b) c) st = Throw msg).
Proof.
  intros Hbad. split_and!.
  - eexists. apply post_jobs_invalid, valid_body_false. by right; left.
  - intros id u c h t Hid Ht. unfold exec. rewrite startJob_run. simpl.
    assert (tasks (stop_existing id st) !! h = Some (stop t)) as Hstop.
    { unfold stop_existing. rewrite Hid. simpl.
      by rewrite list_lookup_alter_eq, Ht. }
    destruct (cron_schedule_error (b_schedule b)); simpl; [done|].
    by apply lookup_app_l_Some.
  - intros id u c msg Hmsg. by rewrite startJob_eval, Hmsg.
Qed.

Lemma invalid_schedule_stopped_at_post_witness :
  let w := World "2024-01-01T00:00:00.000Z" None in
  let a := VStr "a" in
  let u := VStr "https://example.com/hook" in
  let st :=
    exec (post_jobs (H := Node.platform) w
            (Body a u (VStr "0 * * * *") VUndefined)) (boot None) in
  let b := Body a u (VStr "99 * * * *") VUndefined in
  is_live st a 0 = true ∧
  ∃ msg, post_jobs (H := Node.platform) w b st =
         (Ret (Response 400 (error_body msg)), st).
Proof.
  intros w a u st b. split; [reflexivity|].
  apply (invalid_schedule_stopped_at_post (H := Node.platform) w b st).
  reflexivity.
Defined.

(** ** The delivery request *)

(** C6.  The task [startJob] creates for a job keeps the url and the secret
    of the call.  Every fire of a running task hands [fetch] one request: a
    POST to the url of the job, with the header Content-Type:
    application/json and no header other than Authorization; Authorization:
    Bearer <secret> is present exactly when the job's secret passes the
    test [if (cronSecret)], which for a string secret says that it is not
    empty and which fails for an absent ([undefined]) or null secret.  The
    fire leaves the task running, so the same holds at every later fire. *)
Theorem fire_posts_with_headers `{Platform} (st : state) (h : nat) (t : task)
    (ts : string) (net : fetch_result) :
  tasks st !! h = Some t → t_running t = true →
  let st' := exec (fire h ts net) st in
  let headers := delivery_headers (t_secret t) in
  (∀ id u e c,
     cron_schedule_error e = None →
     registered (exec (startJob id u e c) st) id = Some (Task e id u c true)) ∧
  outbox st' = outbox st ++ [HttpRequest "POST" (t_url t) headers] ∧
  headers !! "Content-Type" = Some "application/json" ∧
  headers !! "Authorization" =
    (if truthy (t_secret t)
     then Some ("Bearer " +:+ to_string (t_secret t)) else None) ∧
  (∀ k, k ≠ "Content-Type" → k ≠ "Authorization" → headers !! k = None) ∧
  (∀ s, t_secret t = VStr s →
        (headers !! "Authorization" = Some ("Bearer " +:+ s) ↔ s ≠ "") ∧
        (headers !! "Authorization" = None ↔ s = "")) ∧
  (t_secret t = VUndefined ∨ t_secret t = VNull →
   headers !! "Authorization" = None) ∧
  tasks st' !! h = Some t.
Proof.
  intros Ht Hrun st' headers. split_and!.
  - intros id u e c He. by rewrite registered_startJob_same, He.
  - by apply fire_outbox.
  - apply delivery_headers_content_type.
  - apply delivery_headers_authorization.
  - intros k. apply delivery_headers_other.
  - intros s Hs. subst headers. rewrite delivery_headers_authorization, Hs.
    pose proof (truthy_string s) as Htr.
    destruct (truthy (VStr s)); simpl; split; split; try done.
    + intros _. by apply Htr.
    + intros ->. exfalso. by apply Htr.
    + intros Hne. destruct Htr as [_ Htr]. by specialize (Htr Hne).
    + intros _. destruct (decide (s = "")) as [|Hne]; [done|].
      destruct Htr as [_ Htr]. by specialize (Htr Hne).
  - subst headers. rewrite delivery_headers_authorization.
    by intros [-> | ->].
  - subst st'. destruct (fire_frame h ts net st) as (_ & -> & _). exact Ht.
Qed.

Lemma fire_posts_with_headers_witness :
  let a := VStr "a" in
  let u := VStr "https://example.com/hook" in
  let st :=
    exec (startJob (H := Node.platform) a u (VStr "0 * * * *") (VStr "s3cret"))
      (boot None) in
  outbox (exec (fire 0 "2024-01-01T01:00:00.000Z" (Responded 200)) st) =
  [HttpRequest "POST" u
     (<[ "Authorization" := "Bearer s3cret" ]>
        {[ "Content-Type" := "application/json" ]})].
Proof.
  intros a u st.
  apply (fire_posts_with_headers (H := Node.platform) st 0
           (Task (VStr "0 * * * *") a u (VStr "s3cret") true)
           "2024-01-01T01:00:00.000Z" (Responded 200));
    reflexivity.
Defined.

(** ** A failed delivery *)

(** C7.  When the delivery of a running task fails (the [fetch] promise
    rejects), the callback catches the error and writes one line to
    [console.error] that carries the timestamp and the error message;
    nothing is thrown to node-cron, [activeJobs], the tasks (so the set of
    live timers) and the jobs file are unchanged, and the next fire of the
    task sends the delivery again. *)
Theorem failed_delivery_is_contained (st : state) (h : nat)
    (t : task) (ts msg : string) :
  tasks st !! h = Some t → t_running t = true →
  let st' := exec (fire h ts (Rejected msg)) st in
  eval (fire h ts (Rejected msg)) st = Ret tt ∧
  console st' =
    console st ++
    [ConsoleError ("[" +:+ ts +:+ "] Error executing job " +:+
                   to_string (t_id t) +:+ ":") msg] ∧
  activeJobs st' = activeJobs st ∧
  tasks st' = tasks st ∧
  file st' = file st ∧
  (∀ id, live_handles st' id = live_handles st id) ∧
  (∀ ts' net',
     outbox (exec (fire h ts' net') st') =
     outbox st' ++
     [HttpRequest "POST" (t_url t) (delivery_headers (t_secret t))]).
Proof.
  intros Ht Hrun st'.
  destruct (fire_frame h ts (Rejected msg) st) as (Hev & Hts & Hact & Hfile).
  fold st' in Hts, Hact, Hfile. split_and!; try done.
  - subst st'. unfold exec. rewrite fire_run, Ht, Hrun.
    by rewrite job_callback_run.
  - intros id. unfold live_handles, is_live. by rewrite Hts.
  - intros ts' net'. apply fire_outbox; [|done]. by rewrite Hts.
Qed.

Lemma failed_delivery_is_contained_witness :
  let a := VStr "a" in
  let u := VStr "https://example.com/hook" in
  let st :=
    exec (startJob (H := Node.platform) a u (VStr "0 * * * *") VUndefined)
      (boot None) in
  let st' :=
    exec (fire 0 "2024-01-01T01:00:00.000Z" (Rejected "ECONNREFUSED")) st in
  activeJobs st' !! a = Some 0 ∧ live_handles st' a = [0].
Proof.
  intros a u st st'.
  pose proof (failed_delivery_is_contained st 0
           (Task (VStr "0 * * * *") a u VUndefined true)
           "2024-01-01T01:00:00.000Z" "ECONNREFUSED" eq_refl eq_refl)
    as (_ & _ & Hact & _ & _ & Hlive & _).
  fold st' in Hact, Hlive. rewrite Hact, Hlive. split; reflexivity.
Defined.

(** ** The jobs file *)



(** ** The API key gate *)

(** The sentence of the specification, read literally, fails when the
    configured key is the empty string: a request whose x-api-key header
    is present and equal to the key is still answered 401. *)
Lemma empty_api_key_is_refused :
  let API_KEY := Some "" in
  let x_api_key := Some "" in
  let w := World "2024-01-01T00:00:00.000Z" None in
  ¬ (eval (serve (H := Node.platform) API_KEY w x_api_key GetJobs) (boot None)
       = Ret unauthorized
     ↔ x_api_key = None ∨ x_api_key ≠ API_KEY).
Proof.
  intros API_KEY x_api_key w [Hdenied _].
  destruct (Hdenied eq_refl) as [Habsent|Hdiffers].
  - discriminate Habsent.
  - by apply Hdiffers.
Qed.

(** C9 (amended).  On POST /jobs, GET /jobs and DELETE /jobs/:id the
    request is answered 401, with the state untouched, exactly when the
    x-api-key header is absent, is empty, or differs from the configured
    API key (an unset key equals no header); otherwise the middleware
    hands the request to its handler unchanged, and no handler answers
    401 itself. *)
Theorem api_key_gate `{Platform} (API_KEY : option string) (w : world)
    (x_api_key : option string) (rq : request) (st : state) :
  protected rq = true →
  let denied :=
    x_api_key = None ∨ x_api_key = Some "" ∨ x_api_key ≠ API_KEY in
  (denied → serve API_KEY w x_api_key rq st = (Ret unauthorized, st)) ∧
  (¬ denied → serve API_KEY w x_api_key rq st = handler w rq st) ∧
  ((∃ r, eval (serve API_KEY w x_api_key rq) st = Ret r ∧ status r = 401)
   ↔ denied).
Proof.
  intros Hprot denied. unfold serve, apiKeyMiddleware. rewrite Hprot.
  pose proof (apiKey_check API_KEY x_api_key) as Hcheck. fold denied in Hcheck.
  destruct (negb _ || bool_decide _) eqn:Hb.
  - assert denied as Hd by by apply Hcheck. split_and!; [done|done|].
    split; [done|]. intros _. by exists unauthorized.
  - assert (¬ denied) as Hd.
    { intros Hd. apply Hcheck in Hd. congruence. }
    split_and!; [done|done|]. split; [|done].
    intros (r & Hr & Hst). exfalso.
    destruct (handler_status w rq st) as (r' & Hr' & Hst').
    rewrite Hr in Hr'. injection Hr' as <-. rewrite Hst in Hst'.
    revert Hst'. compute_done.
Qed.

Lemma api_key_gate_witness :
  let w := World "2024-01-01T00:00:00.000Z" None in
  serve (H := Node.platform) (Some "k3y") w (Some "wrong") GetJobs (boot None)
    = (Ret unauthorized, boot None) ∧
  serve (H := Node.platform) (Some "k3y") w (Some "k3y") GetJobs (boot None)
    = handler (H := Node.platform) w GetJobs (boot None).
Proof.
  intros w. split.
  - apply (api_key_gate (H := Node.platform) (Some "k3y") w (Some "wrong")
             GetJobs (boot None) eq_refl).
    right. right. discriminate.
  - apply (api_key_gate (H := Node.platform) (Some "k3y") w (Some "k3y")
             GetJobs (boot None) eq_refl).
    intros [Hd|[Hd|Hd]]; [discriminate Hd|discriminate Hd|by apply Hd].
Defined.

(** ** The answer to a registration *)

(** C10.  The answer to POST /jobs does not depend on the [cronSecret] of
    the request, and a success answer (status 200) carries a job object
    with the properties id, url, schedule, createdAt and createdBy in this
    order and no [cronSecret]. *)
Theorem post_jobs_answer_hides_secret `{Platform} (w : world) (b : body)
    (st : state) :
  (∀ secret,
     eval (post_jobs w (Body (b_id b) (b_url b) (b_schedule b) secret)) st =
     eval (post_jobs w b) st) ∧
  (∀ r, eval (post_jobs w b) st = Ret r → status r = 200 →
        ∃ job,
          payload r =
            JObj [("message", JStr "Job added successfully"); ("job", job)] ∧
          json_keys job = ["id"; "url"; "schedule"; "createdAt"; "createdBy"] ∧
          json_has_key "cronSecret" job = false ∧
          json_field "id" job = b_id b ∧
          json_field "url" job = b_url b ∧
          json_field "schedule" job = b_schedule b ∧
          json_field "createdAt" job = VStr (now w) ∧
          json_field "createdBy" job = VStr "JIMEX-X").
Proof.
  split.
  - intros secret. unfold eval. destruct (valid_body b) eqn:Hv.
    + rewrite !post_jobs_valid by done. simpl.
      destruct (write_error w); [done|].
      by destruct (cron_schedule_error (b_schedule b)).
    + by rewrite !post_jobs_invalid by done.
  - intros r Hr Hst. unfold eval in Hr. destruct (valid_body b) eqn:Hv.
    + rewrite post_jobs_valid in Hr by done.
      destruct (write_error w); simpl in Hr; [by injection Hr as <-|].
      destruct (cron_schedule_error (b_schedule b)); simpl in Hr;
        [by injection Hr as <-|].
      injection Hr as <-. eexists. split; [reflexivity|].
      unfold valid_body in Hv. rewrite !andb_true_iff in Hv.
      destruct Hv as [[[[Hid Hurl] Hsch] _] _].
      apply truthy_to_json in Hid as [ji Hid], Hurl as [ju Hurl],
        Hsch as [js Hsch].
      split_and!.
      * unfold json_object. simpl. by rewrite Hid, Hurl, Hsch.
      * apply bool_decide_eq_false_2. intros Hk%json_object_keys.
        revert Hk. compute_done.
      * by rewrite json_object_fields by compute_done.
      * by rewrite json_object_fields by compute_done.
      * by rewrite json_object_fields by compute_done.
      * by rewrite json_object_fields by compute_done.
      * by rewrite json_object_fields by compute_done.
    + rewrite post_jobs_invalid in Hr by done. by injection Hr as <-.
Qed.

Lemma post_jobs_answer_hides_secret_witness :
  let w := World "2024-01-01T00:00:00.000Z" None in
  let b :=
    Body (VStr "a") (VStr "https://example.com/hook") (VStr "0 * * * *")
      (VStr "s3cret") in
  ∃ job,
    eval (post_jobs (H := Node.platform) w b) (boot None) =
    Ret (Response 200
           (JObj [("message", JStr "Job added successfully"); ("job", job)])) ∧
    json_keys job = ["id"; "url"; "schedule"; "createdAt"; "createdBy"].
Proof.
  intros w b.
  destruct (post_jobs_answer_hides_secret (H := Node.platform) w b (boot None))
    as [_ Hshape].
  destruct (Hshape (Response 200 (added_body w b)) eq_refl eq_refl)
    as (job & Hjob & Hkeys & _).
  exists job. split; [|exact Hkeys].
  simpl in Hjob. rewrite <- Hjob. reflexivity.
Defined.

(** * Further properties of the code *)

(** ** Supporting lemmas *)

Lemma self_ping_run SERVER_URL env_PORT ts net st :
  self_ping SERVER_URL env_PORT ts net st =
  (Ret tt,
   set_console
     (console st ++
      [match net with
       | Responded _ => ConsoleLog ("[" +:+ ts +:+ "] Self-ping successful")
       | Rejected msg =>
           ConsoleError ("[" +:+ ts +:+ "] Self-ping failed:") msg
       end])
     (set_outbox
        (outbox st ++
         [HttpRequest "GET"
            (VStr (serverUrl SERVER_URL env_PORT +:+ "/health")) ∅]) st)).
Proof. by destruct net. Qed.

Section Cases.
Context `{Platform}.

(** What a handler does to the state: nothing, a registration, or a
    removal. *)
Lemma handler_cases w rq st :
  exec (handler w rq) st = st ∨
  (∃ b, rq = PostJobs b ∧ valid_body b = true ∧ write_error w = None ∧
        exec (handler w rq) st =
        exec (startJob (b_id b) (b_url b) (b_schedule b) (b_cronSecret b))
          (set_file
             (Some (stringify_jobs
                      (<[to_string (b_id b) := new_job w b]> (persisted st))))
             st)) ∨
  (∃ id r, rq = DeleteJob id ∧ persisted st !! id = Some r ∧
           exec (handler w rq) st =
           match write_error w with
           | None =>
               set_file (Some (stringify_jobs (delete id (persisted st))))
                 (exec (stopJob (VStr id)) st)
           | Some _ => exec (stopJob (VStr id)) st
           end).
Proof.
  unfold exec. destruct rq as [b| |id|]; simpl.
  - destruct (valid_body b) eqn:Hv; [|left; by rewrite post_jobs_invalid].
    rewrite post_jobs_valid by done.
    destruct (write_error w) eqn:Hw; [by left|]. right. left.
    exists b. split_and!; try done. cbv zeta.
    by destruct (cron_schedule_error (b_schedule b)).
  - left. by rewrite get_jobs_run.
  - rewrite delete_job_run.
    destruct (persisted st !! id) as [r|] eqn:Hid; [|by left].
    right. right. exists id, r. split_and!; try done. cbv zeta.
    by destruct (write_error w).
  - by left.
Qed.

Lemma server_step_cases API_KEY SERVER_URL env_PORT pinging st sev :
  let st' := server_step API_KEY SERVER_URL env_PORT pinging st sev in
  (tasks st' = tasks st ∧ activeJobs st' = activeJobs st ∧
   file st' = file st) ∨
  (∃ k w b, sev = Handled (Arrives k w (PostJobs b)) ∧
            valid_body b = true ∧ write_error w = None ∧
            st' =
            exec (startJob (b_id b) (b_url b) (b_schedule b) (b_cronSecret b))
              (set_file
                 (Some (stringify_jobs
                          (<[to_string (b_id b) := new_job w b]>
                             (persisted st)))) st)) ∨
  (∃ k w id r, sev = Handled (Arrives k w (DeleteJob id)) ∧
               persisted st !! id = Some r ∧
               st' =
               match write_error w with
               | None =>
                   set_file (Some (stringify_jobs (delete id (persisted st))))
                     (exec (stopJob (VStr id)) st)
               | Some _ => exec (stopJob (VStr id)) st
               end).
Proof.
  intros st'. subst st'. destruct sev as [[k w rq|h ts net]|ts net]; simpl.
  - assert (exec (serve API_KEY w k rq) st = st ∨
            exec (serve API_KEY w k rq) st = exec (handler w rq) st) as [->| ->].
    { unfold serve, apiKeyMiddleware. destruct (protected rq); [|by right].
      destruct (negb _ || bool_decide _); [by left|by right]. }
    { by left. }
    destruct (handler_cases w rq st) as [->|[(b & -> & Hv & Hw & Hst)|
      (id & r & -> & Hid & Hst)]]; [by left| |].
    + right. left. by exists k, w, b.
    + right. right. by exists k, w, id, r.
  - left. by destruct (fire_frame h ts net st) as (_ & ? & ? & ?).
  - left. destruct pinging; [|done]. unfold exec. by rewrite self_ping_run.
Qed.

Lemma initializeJobs_unfold st :
  initializeJobs st =
  forEach (λ p : string * jobrec,
             startJob (VStr p.1) (url p.2) (schedule p.2) (cronSecret p.2))
    (map_to_list (persisted st)) st.
Proof.
  unfold initializeJobs, ensureDataDirectory.
  unfold bind at 1. unfold ret at 1. unfold bind at 1.
  by rewrite loadJobs_run.
Qed.

(** The state [initializeJobs] starts from in [listen]. *)
Lemma listen_run env_PORT f :
  listen env_PORT (boot f) =
  let st0 :=
    set_console
      [ConsoleLog ("Server running on port " +:+ to_string (PORT env_PORT))]
      (boot f) in
  forEach (λ p : string * jobrec,
             startJob (VStr p.1) (url p.2) (schedule p.2) (cronSecret p.2))
    (map_to_list (persisted (boot f))) st0.
Proof.
  unfold listen, bind, console_log, modify. simpl.
  by rewrite initializeJobs_unfold.
Qed.

End Cases.

Section LaunchedServer.
Context `{Platform}.

Lemma sched_inv_fresh st :
  tasks st = [] → activeJobs st = ∅ → sched_inv st.
Proof.
  intros Ht Ha. split; intros ??; [by rewrite Ht, lookup_nil|].
  by rewrite Ha, lookup_empty.
Qed.

Lemma listen_inv env_PORT f : sched_inv (listen env_PORT (boot f)).2.
Proof.
  rewrite listen_run. cbv zeta. apply forEach_startJob_inv.
  by apply sched_inv_fresh.
Qed.

Lemma listen_file env_PORT f : file (listen env_PORT (boot f)).2 = f.
Proof.
  rewrite listen_run. cbv zeta. apply forEach_startJob_file.
Qed.

(** When [cron.schedule] accepts the file, [listen] returns and has made
    the calls of [replay]. *)
Lemma listen_accepted env_PORT f :
  accepted_file f →
  listen env_PORT (boot f) =
  (Ret tt,
   run_ops (replay (map_to_list (persisted (boot f))))
     (set_console
        [ConsoleLog ("Server running on port " +:+ to_string (PORT env_PORT))]
        (boot f))).
Proof.
  intros Hok. rewrite listen_run. cbv zeta.
  apply forEach_startJob_run. apply Forall_forall. intros [k r] Hin.
  apply elem_of_map_to_list in Hin. by apply (Hok k r).
Qed.

(** An induction principle for the states of a launched server. *)
Lemma server_run_invariant (P : state → Prop) API_KEY SERVER_URL env_PORT f
    sevs :
  P (listen env_PORT (boot f)).2 →
  (∀ st sev, sev ∈ sevs → sched_inv st → P st →
     P (server_step API_KEY SERVER_URL env_PORT
          (returned (listen env_PORT (boot f)).1) st sev)) →
  sched_inv (server_run API_KEY SERVER_URL env_PORT f sevs) ∧
  P (server_run API_KEY SERVER_URL env_PORT f sevs).
Proof.
  unfold server_run. cbv zeta.
  generalize (returned (listen env_PORT (boot f)).1). intros pinging.
  generalize (listen_inv env_PORT f).
  generalize ((listen env_PORT (boot f)).2).
  induction sevs as [|sev sevs IH]; intros st Hinv HP Hstep; [done|].
  simpl. apply IH.
  - destruct (server_step_cases API_KEY SERVER_URL env_PORT pinging st sev)
      as [(Ht & Ha & _)|[(k & w & b & _ & _ & _ & ->)|
          (k & w & id & r & _ & _ & ->)]].
    + by apply (sched_inv_same st).
    + by apply startJob_inv.
    + pose proof (stopJob_inv (VStr id) st Hinv). by destruct (write_error w).
  - apply Hstep; [left|done|done].
  - intros st' sev' Hin. apply Hstep. by right.
Qed.

Lemma all_running_same st st' :
  tasks st' = tasks st → activeJobs st' = activeJobs st →
  all_running st → all_running st'.
Proof. unfold all_running, is_live. by intros -> ->. Qed.

Lemma all_running_fresh st : activeJobs st = ∅ → all_running st.
Proof. intros Ha id h. by rewrite Ha, lookup_empty. Qed.

(** Stopping the timer of one id leaves the tasks of the others alone. *)
Lemma stop_existing_other id id' h' st :
  sched_inv st → id' ≠ id → activeJobs st !! id' = Some h' →
  tasks (stop_existing id st) !! h' = tasks st !! h'.
Proof.
  intros [_ I2] Hne Hid'. unfold stop_existing.
  destruct (activeJobs st !! id) as [h|] eqn:Hid; simpl; [|done].
  apply list_lookup_alter_ne. intros ->.
  destruct (I2 _ _ Hid) as (t & Ht & Ht1).
  destruct (I2 _ _ Hid') as (t' & Ht' & Ht1'). congruence.
Qed.

Lemma startJob_all_running id u e c st :
  sched_inv st → all_running st → cron_schedule_error e = None →
  all_running (exec (startJob id u e c) st).
Proof.
  intros Hinv Hall He id' h'. unfold exec. rewrite startJob_run, He. simpl.
  rewrite stop_existing_activeJobs.
  destruct (decide (id = id')) as [<-|Hne].
  - rewrite lookup_insert_eq. intros [= <-]. unfold is_live. simpl.
    rewrite lookup_app_r, Nat.sub_diag by done. simpl.
    by rewrite bool_decide_eq_true_2.
  - rewrite lookup_insert_ne by done. intros Hid'.
    pose proof (Hall _ _ Hid') as Hlive. unfold is_live in *. simpl.
    destruct (tasks st !! h') as [t|] eqn:Ht; [|done].
    rewrite (lookup_app_l_Some _ _ _ t); [done|].
    by rewrite (stop_existing_other id id' h' st).
Qed.

Lemma stopJob_all_running id st :
  sched_inv st → all_running st → all_running (exec (stopJob id) st).
Proof.
  intros Hinv Hall id' h'. unfold exec. rewrite stopJob_run. simpl.
  destruct (activeJobs st !! id) as [h|] eqn:Hid; [|by apply Hall].
  simpl. intros [Hne Hid']%lookup_delete_Some.
  pose proof (Hall _ _ Hid') as Hlive. unfold is_live in *. simpl.
  pose proof (stop_existing_other id id' h' st Hinv (not_eq_sym Hne) Hid')
    as Hsame.
  unfold stop_existing in Hsame. rewrite Hid in Hsame. simpl in Hsame.
  by rewrite Hsame.
Qed.

Lemma run_ops_all_running ops st :
  sched_inv st → all_running st →
  Forall (λ op, match op with
                | Start _ _ e _ => cron_schedule_error e = None
                | Delete _ => True
                end) ops →
  all_running (run_ops ops st).
Proof.
  intros Hinv Hall Hops. revert st Hinv Hall.
  induction Hops as [|op ops Hop _ IH]; intros st Hinv Hall; [done|].
  simpl. destruct op as [id u e c|id]; simpl.
  - apply IH; [by apply startJob_inv|by apply startJob_all_running].
  - apply IH; [by apply stopJob_inv|by apply stopJob_all_running].
Qed.

(** With [cron.schedule] accepting the file and whatever [cron.validate]
    accepts, every entry of [activeJobs] of a launched server runs. *)
Lemma server_run_all_running API_KEY SERVER_URL env_PORT f sevs :
  validate_sound → accepted_file f →
  sched_inv (server_run API_KEY SERVER_URL env_PORT f sevs) ∧
  all_running (server_run API_KEY SERVER_URL env_PORT f sevs).
Proof.
  intros Hlaw Hok. apply server_run_invariant.
  - rewrite listen_accepted by done. simpl.
    apply run_ops_all_running;
      [by apply sched_inv_fresh|by apply all_running_fresh|].
    apply Forall_forall. intros op [[k r] [-> Hin]]%list_elem_of_fmap.
    apply elem_of_map_to_list in Hin. by apply (Hok k r).
  - intros st sev _ Hinv Hall.
    destruct (server_step_cases API_KEY SERVER_URL env_PORT
                (returned (listen env_PORT (boot f)).1) st sev)
      as [(Ht & Ha & _)|[(k & w & b & _ & Hv & _ & ->)|
          (k & w & id & r & _ & _ & ->)]].
    + by apply (all_running_same st).
    + apply startJob_all_running; [done|done|].
      apply Hlaw. unfold valid_body in Hv. rewrite !andb_true_iff in Hv. tauto.
    + pose proof (stopJob_all_running (VStr id) st Hinv Hall).
      by destruct (write_error w).
Qed.

End LaunchedServer.

Section FileAndTimers.
Context `{Platform}.








(** A record [app.post] writes has passed its validations. *)
Lemma valid_body_posted_record w b :
  valid_body b = true → posted_record (new_job w b).
Proof.
  unfold valid_body, posted_record. rewrite !andb_true_iff. simpl.
  intros [[[[_ Hu] He] Hc] Hok]. split_and!; try done. by eexists.
Qed.

Lemma step_persisted_Forall (Q : jobrec → Prop) API_KEY SERVER_URL env_PORT
    pinging st sev :
  (∀ w b, valid_body b = true → Q (new_job w b)) →
  map_Forall (λ _, Q) (persisted st) →
  map_Forall (λ _, Q)
    (persisted (server_step API_KEY SERVER_URL env_PORT pinging st sev)).
Proof.
  intros HQ Hst.
  destruct (server_step_cases API_KEY SERVER_URL env_PORT pinging st sev)
    as [(_ & _ & Hf)|[(k & w & b & _ & Hv & _ & ->)|
        (k & w & id & r & _ & _ & ->)]].
  - by rewrite (persisted_file st).
  - set (jobs := <[to_string (b_id b) := new_job w b]> (persisted st)).
    rewrite (persisted_file (set_file (Some (stringify_jobs jobs)) st))
      by apply startJob_file.
    rewrite persisted_set_file. apply map_Forall_insert_2; [by apply HQ|done].
  - assert (persisted (exec (stopJob (VStr id)) st) = persisted st) as Hstop.
    { apply persisted_file. unfold exec. rewrite stopJob_run. simpl.
      by destruct (activeJobs st !! VStr id). }
    destruct (write_error w).
    + by rewrite Hstop.
    + rewrite persisted_set_file. by apply map_Forall_delete.
Qed.

End FileAndTimers.

Section Removal.
Context `{Platform}.

Lemma server_run_sched_inv API_KEY SERVER_URL env_PORT f sevs :
  sched_inv (server_run API_KEY SERVER_URL env_PORT f sevs).
Proof. by apply (server_run_invariant (λ _, True)). Qed.

(** Once [stopJob] has run, the id has no entry and no live timer. *)
Lemma stopJob_quiet id st :
  sched_inv st →
  activeJobs (exec (stopJob id) st) !! id = None ∧
  live_handles (exec (stopJob id) st) id = [].
Proof.
  intros Hinv.
  assert (activeJobs (exec (stopJob id) st) !! id = None) as Hnone.
  { unfold exec. rewrite stopJob_run. simpl.
    destruct (activeJobs st !! id) eqn:Hid; [|done].
    simpl. apply lookup_delete_eq. }
  split; [done|].
  rewrite live_handles_registered by by apply stopJob_inv.
  by rewrite Hnone.
Qed.





End Removal.

(** ** Removing a job *)



(** X2.  When the write of DELETE /jobs/:id fails the request is answered
    500 with the message of the error, but the timer is already gone: the
    id has no entry in [activeJobs] and no live timer, while the jobs file
    still holds its record. *)
Theorem delete_job_failed_write_drops_timer `{Platform}
    (API_KEY SERVER_URL env_PORT : option string) (f : option json)
    (sevs : list server_event) (w : world) (id : string) (r : jobrec)
    (msg : string) :
  let st := server_run API_KEY SERVER_URL env_PORT f sevs in
  let st' := exec (delete_job w id) st in
  persisted st !! id = Some r → write_error w = Some msg →
  eval (delete_job w id) st = Ret (Response 500 (error_body msg)) ∧
  persisted st' = persisted st ∧
  activeJobs st' !! VStr id = None ∧
  live_handles st' (VStr id) = [].
Proof.
  intros st st' Hid Hw.
  pose proof (server_run_sched_inv API_KEY SERVER_URL env_PORT f sevs) as Hinv.
  fold st in Hinv.
  destruct (stopJob_quiet (VStr id) st Hinv) as [Hnone Hquiet].
  assert (st' = exec (stopJob (VStr id)) st) as Hst'.
  { subst st'. unfold exec at 1. by rewrite delete_job_run, Hid, Hw. }
  split_and!.
  - unfold eval. by rewrite delete_job_run, Hid, Hw.
  - rewrite Hst'. apply persisted_file. unfold exec. rewrite stopJob_run.
    simpl. by destruct (activeJobs st !! VStr id).
  - by rewrite Hst'.
  - by rewrite Hst'.
Qed.

Lemma delete_job_failed_write_drops_timer_witness :
  let w := World "2024-01-01T00:00:00.000Z" None in
  let full := World "2024-01-01T00:05:00.000Z" (Some "ENOSPC") in
  let b :=
    Body (VStr "a") (VStr "https://example.com/hook") (VStr "0 * * * *")
      VUndefined in
  let st :=
    server_run (H := Node.platform) (Some "k3y") None None None
      [Handled (Arrives (Some "k3y") w (PostJobs b))] in
  let st' := exec (delete_job full "a") st in
  persisted st' !! "a" = Some (new_job w b) ∧
  live_handles st (VStr "a") = [0] ∧ live_handles st' (VStr "a") = [].
Proof.
  intros w full b st st'.
  destruct (delete_job_failed_write_drops_timer (H := Node.platform)
              (Some "k3y") None None None
              [Handled (Arrives (Some "k3y") w (PostJobs b))]
              full "a" (new_job w b) "ENOSPC" eq_refl eq_refl)
    as (_ & Hp & _ & Hlive).
  fold st st' in Hp, Hlive. rewrite Hp, Hlive. by split_and!.
Defined.

(** ** Jobs do not disturb one another *)



(** ** The health endpoint *)

Section Health.
Context `{Platform}.

Lemma running_handles_elem st h :
  h ∈ running_handles st ↔ running_at st h = true.
Proof.
  unfold running_handles. rewrite list_elem_of_filter, elem_of_seq.
  split; [by intros [? _]|]. intros Hrun. split; [done|].
  unfold running_at in Hrun. destruct (tasks st !! h) eqn:Hh; [|done].
  apply lookup_lt_Some in Hh. lia.
Qed.

(** When every entry runs, [activeJobs] has as many entries as there are
    running tasks. *)
Lemma size_activeJobs_running st :
  sched_inv st → all_running st →
  size (activeJobs st) = length (running_handles st).
Proof.
  intros [I1 I2] Hall.
  rewrite <- length_map_to_list.
  rewrite <- (length_fmap snd (map_to_list (activeJobs st))).
  apply Permutation_length, NoDup_Permutation.
  - apply NoDup_fmap_2_strong; [|apply NoDup_map_to_list].
    intros [id1 h1] [id2 h2] Hin1%elem_of_map_to_list Hin2%elem_of_map_to_list.
    simpl. intros <-.
    destruct (I2 _ _ Hin1) as (t1 & Ht1 & <-).
    destruct (I2 _ _ Hin2) as (t2 & Ht2 & <-). congruence.
  - unfold running_handles. apply NoDup_filter, NoDup_seq.
  - intros h. rewrite running_handles_elem, list_elem_of_fmap. split.
    + intros [[id h'] [-> Hin%elem_of_map_to_list]]. simpl.
      pose proof (Hall _ _ Hin) as Hlive. unfold is_live, running_at in *.
      destruct (tasks st !! h'); [|done].
      by apply andb_true_iff in Hlive as [? _].
    + intros Hrun. unfold running_at in Hrun.
      destruct (tasks st !! h) as [t|] eqn:Ht; [|done].
      exists (t_id t, h). split; [done|].
      apply elem_of_map_to_list. by apply I1.
Qed.

End Health.

(** X4.  GET /health needs no API key and changes nothing; it answers 200
    with the status "healthy", the timestamp, and the size of
    [activeJobs], which on a launched server is the number of running
    tasks, as long as [cron.schedule] accepts the schedules of the jobs
    file and whatever [cron.validate] accepts. *)
Theorem health_counts_running_tasks `{Platform}
    (API_KEY SERVER_URL env_PORT : option string) (f : option json)
    (sevs : list server_event) (w : world) (x_api_key : option string) :
  let st := server_run API_KEY SERVER_URL env_PORT f sevs in
  validate_sound → accepted_file f →
  serve API_KEY w x_api_key GetHealth st =
  (Ret (Response 200
          (JObj [("status", JStr "healthy"); ("timestamp", JStr (now w));
                 ("activeJobs",
                  JNum (Z.of_nat (length (running_handles st))))])), st).
Proof.
  intros st Hlaw Hok.
  destruct (server_run_all_running API_KEY SERVER_URL env_PORT f sevs Hlaw Hok)
    as [Hinv Hall].
  fold st in Hinv, Hall.
  rewrite <- (size_activeJobs_running st Hinv Hall). reflexivity.
Qed.

Lemma node_validate_sound : validate_sound (H := Node.platform).
Proof. intros e He. simpl in *. unfold Node.schedule_error. by rewrite He. Qed.

Lemma health_counts_running_tasks_witness :
  let w := World "2024-01-01T00:00:00.000Z" None in
  let u := VStr "https://example.com/hook" in
  let post id e :=
    Handled (Arrives (Some "k3y") w (PostJobs (Body id u e VUndefined))) in
  let st :=
    server_run (H := Node.platform) (Some "k3y") None None None
      [post (VStr "a") (VStr "0 * * * *"); post (VStr "b") (VStr "*/5 * * * *");
       post (VStr "a") (VStr "30 * * * *");
       Handled (Arrives (Some "k3y") w (DeleteJob "b"))] in
  eval (serve (H := Node.platform) (Some "k3y") w None GetHealth) st =
  Ret (Response 200
         (JObj [("status", JStr "healthy");
                ("timestamp", JStr "2024-01-01T00:00:00.000Z");
                ("activeJobs", JNum 1)])).
Proof.
  intros w u post st. unfold eval. subst st.
  rewrite (health_counts_running_tasks (H := Node.platform) (Some "k3y") None
             None None _ w None node_validate_sound (map_Forall_empty _)).
  reflexivity.
Defined.

(** ** What the server sends and logs *)

(** X5.  A fire of a running task writes exactly one console line and
    hands [fetch] exactly one request.  Whatever status the target answers
    with, 404 and 500 included, the line goes to [console.log] and reads
    "Job <id> executed: <status>"; a line goes to [console.error] only
    when the [fetch] promise rejects. *)
Theorem delivery_logs_any_status_as_executed (st : state) (h : nat) (t : task)
    (ts : string) (net : fetch_result) :
  tasks st !! h = Some t → t_running t = true →
  let st' := exec (fire h ts net) st in
  length (outbox st') = S (length (outbox st)) ∧
  (∃ line, console st' = console st ++ [line] ∧
     ((∃ text detail, line = ConsoleError text detail) ↔
      (∃ msg, net = Rejected msg))) ∧
  (∀ code, net = Responded code →
     console st' =
     console st ++
     [ConsoleLog ("[" +:+ ts +:+ "] Job " +:+ to_string (t_id t) +:+
                  " executed: " +:+ pretty code)]).
Proof.
  intros Ht Hrun st'. subst st'. unfold exec.
  rewrite fire_run, Ht, Hrun, job_callback_run. simpl. split_and!.
  - rewrite length_app. simpl. lia.
  - eexists. split; [done|]. destruct net; split.
    + by intros (? & ? & ?).
    + by intros (? & ?).
    + intros _. by eexists.
    + intros _. by do 2 eexists.
  - by intros code ->.
Qed.

Lemma delivery_logs_any_status_as_executed_witness :
  let a := VStr "a" in
  let u := VStr "https://example.com/hook" in
  let st :=
    exec (startJob (H := Node.platform) a u (VStr "0 * * * *") VUndefined)
      (boot None) in
  console (exec (fire 0 "2024-01-01T01:00:00.000Z" (Responded 500)) st) =
  [ConsoleLog "[2024-01-01T01:00:00.000Z] Job a executed: 500"].
Proof.
  intros a u st.
  destruct (delivery_logs_any_status_as_executed st 0
              (Task (VStr "0 * * * *") a u VUndefined true)
              "2024-01-01T01:00:00.000Z" (Responded 500) eq_refl eq_refl)
    as (_ & _ & Hlog).
  rewrite (Hlog 500 eq_refl). reflexivity.
Defined.

(** X6.  A self-ping sends one GET, without headers, to
    <serverUrl>/health, where serverUrl is SERVER_URL when that is set and
    not empty and otherwise http://localhost:<PORT>, the port being 3000
    when PORT is unset or empty.  It throws nothing, writes one console
    line (to [console.error], with the error's message, exactly when the
    request fails) and leaves the jobs file, [activeJobs] and the tasks
    alone. *)
Theorem self_ping_is_contained (SERVER_URL env_PORT : option string)
    (ts : string) (net : fetch_result) (st : state) :
  let st' := exec (self_ping SERVER_URL env_PORT ts net) st in
  let unset (v : option string) := v = None ∨ v = Some "" in
  eval (self_ping SERVER_URL env_PORT ts net) st = Ret tt ∧
  outbox st' =
    outbox st ++
    [HttpRequest "GET" (VStr (serverUrl SERVER_URL env_PORT +:+ "/health")) ∅] ∧
  console st' =
    console st ++
    [match net with
     | Responded _ => ConsoleLog ("[" +:+ ts +:+ "] Self-ping successful")
     | Rejected msg => ConsoleError ("[" +:+ ts +:+ "] Self-ping failed:") msg
     end] ∧
  file st' = file st ∧ activeJobs st' = activeJobs st ∧ tasks st' = tasks st ∧
  (∀ url, SERVER_URL = Some url → url ≠ "" →
          serverUrl SERVER_URL env_PORT = url) ∧
  (∀ port, unset SERVER_URL → env_PORT = Some port → port ≠ "" →
           serverUrl SERVER_URL env_PORT = "http://localhost:" +:+ port) ∧
  (unset SERVER_URL → unset env_PORT →
   serverUrl SERVER_URL env_PORT = "http://localhost:3000").
Proof.
  intros st' unset. subst st'. unfold eval, exec. rewrite self_ping_run. simpl.
  split_and!; try done.
  - intros url -> Hurl%truthy_string. unfold serverUrl. simpl in *.
    by rewrite Hurl.
  - intros port Hsu -> Hport%truthy_string. unfold serverUrl, PORT. simpl in *.
    rewrite Hport. by destruct Hsu as [->| ->].
  - intros Hsu Hport. unfold serverUrl, PORT.
    by destruct Hsu as [->| ->], Hport as [->| ->].
Qed.

Lemma self_ping_is_contained_witness :
  outbox (exec (self_ping None (Some "8080") "2024-01-01T00:14:00.000Z"
                  (Rejected "ECONNREFUSED")) (boot None)) =
  [HttpRequest "GET" (VStr "http://localhost:8080/health") ∅].
Proof.
  destruct (self_ping_is_contained None (Some "8080")
              "2024-01-01T00:14:00.000Z" (Rejected "ECONNREFUSED") (boot None))
    as (_ & Hout & _ & _ & _ & _ & _ & Hport & _).
  rewrite Hout, (Hport "8080"); [reflexivity|by left|reflexivity|discriminate].
Defined.

(** ** Start-up *)

Section StartUp.
Context `{Platform}.

Lemma forEach_startJob_returns (l : list (string * jobrec)) st :
  eval (forEach (λ p : string * jobrec,
                   startJob (VStr p.1) (url p.2) (schedule p.2)
                     (cronSecret p.2)) l) st = Ret tt →
  Forall (λ p, cron_schedule_error (schedule p.2) = None) l.
Proof.
  revert st. induction l as [|p l IH]; intros st; [done|].
  unfold eval. simpl. unfold bind. rewrite startJob_run. cbv zeta.
  destruct (cron_schedule_error (schedule p.2)) eqn:He; simpl; [done|].
  intros Hrest. constructor; [done|]. by eapply IH.
Qed.



End StartUp.





(** ** The jobs file and the timers *)



Section NumericIds.
Context `{Platform}.


End NumericIds.



(** ** Answers *)

(** X11.  When API_KEY is not set, or is set to the empty string, no
    x-api-key header opens the API: every POST /jobs, GET /jobs and DELETE
    /jobs/:id is answered 401 and changes nothing, whatever header it
    carries. *)
Theorem api_is_locked_without_key `{Platform} (API_KEY : option string)
    (w : world) (x_api_key : option string) (rq : request) (st : state) :
  API_KEY = None ∨ API_KEY = Some "" → protected rq = true →
  serve API_KEY w x_api_key rq st = (Ret unauthorized, st).
Proof.
  intros Hkey Hprot. unfold serve, apiKeyMiddleware. rewrite Hprot.
  assert (negb (truthy (js_of_option x_api_key))
          || bool_decide (js_of_option x_api_key ≠ js_of_option API_KEY)
          = true) as ->; [|done].
  apply apiKey_check.
  destruct x_api_key as [s|]; [|by left].
  destruct (decide (s = "")) as [->|Hs]; [right; by left|].
  right. right. destruct Hkey as [-> | ->]; congruence.
Qed.

Lemma api_is_locked_without_key_witness :
  let w := World "2024-01-01T00:00:00.000Z" None in
  serve (H := Node.platform) None w (Some "anything") GetJobs (boot None) =
  (Ret unauthorized, boot None).
Proof.
  intros w.
  apply (api_is_locked_without_key (H := Node.platform) None w
           (Some "anything") GetJobs (boot None)); [by left|reflexivity].
Defined.

(** X12.  Every record in the jobs file of a launched server has passed the
    validations of POST /jobs, provided the records of the file it was
    launched on had: its url and schedule are present, [new URL] accepts
    the url, [cron.validate] accepts the schedule, createdAt is a string
    and createdBy is "JIMEX-X". *)
Theorem persisted_records_passed_validation `{Platform}
    (API_KEY SERVER_URL env_PORT : option string) (f : option json)
    (sevs : list server_event) :
  map_Forall (λ _, posted_record) (persisted (boot f)) →
  map_Forall (λ _, posted_record)
    (persisted (server_run API_KEY SERVER_URL env_PORT f sevs)).
Proof.
  intros Hf.
  apply (server_run_invariant
           (λ st, map_Forall (λ _, posted_record) (persisted st))).
  - by rewrite (persisted_file (boot f)) by apply listen_file.
  - intros st sev _ _ Hst. apply step_persisted_Forall; [|done].
    intros w b. apply valid_body_posted_record.
Qed.

Lemma persisted_records_passed_validation_witness :
  let w := World "2024-01-01T00:00:00.000Z" None in
  let b :=
    Body (VStr "a") (VStr "https://example.com/hook") (VStr "0 * * * *")
      VUndefined in
  let bad := Body (VStr "b") (VStr "example") (VStr "0 * * * *") VUndefined in
  let st :=
    server_run (H := Node.platform) (Some "k3y") None None None
      [Handled (Arrives (Some "k3y") w (PostJobs b));
       Handled (Arrives (Some "k3y") w (PostJobs bad))] in
  map_Forall (λ _, posted_record (H := Node.platform)) (persisted st) ∧
  persisted st !! "a" = Some (new_job w b) ∧ persisted st !! "b" = None.
Proof.
  intros w b bad st. split; [|by vm_compute].
  apply (persisted_records_passed_validation (H := Node.platform) (Some "k3y")
           None None None).
  apply map_Forall_empty.
Defined.



(** ** Outbound requests *)

Section Outbound.
Context `{Platform}.

(** Stopping and scheduling keep the url and the secret of every task. *)
Lemma lookup_alter_stop_keeps (ts : list task) h0 h t :
  ts !! h = Some t →
  ∃ t', alter stop h0 ts !! h = Some t' ∧
        t_url t' = t_url t ∧ t_secret t' = t_secret t.
Proof.
  intros Ht. destruct (decide (h0 = h)) as [->|Hne].
  - exists (stop t). by rewrite list_lookup_alter_eq, Ht.
  - exists t. by rewrite list_lookup_alter_ne.
Qed.

Lemma run_op_keeps_tasks st op h t :
  tasks st !! h = Some t →
  ∃ t', tasks (run_op st op) !! h = Some t' ∧
        t_url t' = t_url t ∧ t_secret t' = t_secret t.
Proof.
  intros Ht. destruct op as [id u e c|id]; simpl; unfold exec.
  - rewrite startJob_run. cbv zeta.
    assert (∃ t', tasks (stop_existing id st) !! h = Some t' ∧
                  t_url t' = t_url t ∧ t_secret t' = t_secret t)
      as (t' & Ht' & Hu & Hs).
    { unfold stop_existing. destruct (activeJobs st !! id); simpl; [|eauto].
      by apply lookup_alter_stop_keeps. }
    destruct (cron_schedule_error e); simpl; [eauto|].
    exists t'. split; [|done]. by apply lookup_app_l_Some.
  - rewrite stopJob_run. simpl.
    destruct (activeJobs st !! id); simpl; [|eauto].
    by apply lookup_alter_stop_keeps.
Qed.

Lemma run_op_outbox st op : outbox (run_op st op) = outbox st.
Proof.
  destruct op as [id u e c|id]; simpl; unfold exec.
  - rewrite startJob_run. cbv zeta. unfold stop_existing.
    by destruct (cron_schedule_error e), (activeJobs st !! id).
  - rewrite stopJob_run. simpl. by destruct (activeJobs st !! id).
Qed.

Lemma handler_outbox w rq st : outbox (exec (handler w rq) st) = outbox st.
Proof.
  destruct (handler_cases w rq st)
    as [->|[(b & _ & _ & _ & ->)|(id & r & _ & _ & ->)]]; [done| |].
  - exact (run_op_outbox (set_file _ st)
             (Start (b_id b) (b_url b) (b_schedule b) (b_cronSecret b))).
  - pose proof (run_op_outbox st (Delete (VStr id))) as Hout. simpl in Hout.
    by destruct (write_error w).
Qed.

Lemma handler_keeps_tasks w rq st h t :
  tasks st !! h = Some t →
  ∃ t', tasks (exec (handler w rq) st) !! h = Some t' ∧
        t_url t' = t_url t ∧ t_secret t' = t_secret t.
Proof.
  intros Ht. destruct (handler_cases w rq st)
    as [->|[(b & _ & _ & _ & ->)|(id & r & _ & _ & ->)]]; [eauto| |].
  - by apply (run_op_keeps_tasks (set_file _ st)
                (Start (b_id b) (b_url b) (b_schedule b) (b_cronSecret b))).
  - pose proof (run_op_keeps_tasks st (Delete (VStr id)) h t Ht) as Hkeep.
    simpl in Hkeep. by destruct (write_error w).
Qed.

Lemma forEach_startJob_outbox (l : list (string * jobrec)) st :
  outbox (exec (forEach (λ p : string * jobrec,
                           startJob (VStr p.1) (url p.2) (schedule p.2)
                             (cronSecret p.2)) l) st) = outbox st.
Proof.
  revert st. induction l as [|p l IH]; intros st; [done|].
  pose proof (run_op_outbox st
                (Start (VStr p.1) (url p.2) (schedule p.2) (cronSecret p.2)))
    as Hstep.
  unfold run_op, exec in *. simpl. unfold bind.
  destruct (startJob _ _ _ _ st) as [[[]|msg] st1]; simpl in *; [|done].
  by rewrite IH.
Qed.

Lemma serve_cases API_KEY w k rq st :
  exec (serve API_KEY w k rq) st = st ∨
  exec (serve API_KEY w k rq) st = exec (handler w rq) st.
Proof.
  unfold serve, apiKeyMiddleware. destruct (protected rq); [|by right].
  destruct (negb _ || bool_decide _); [by left|by right].
Qed.

End Outbound.

(** X14.  The only requests a launched server ever sends are deliveries and
    self-pings: every request handed to [fetch] is the POST of a task of
    the heap, to that task's url and with the headers its secret gives, or
    the GET of the self-ping, and the latter only when [initializeJobs]
    returned at launch (the callback of [app.listen] reaches
    [setupSelfPing] only then).  Handling a request, authorized or not,
    sends nothing. *)
Theorem server_sends_deliveries_and_pings `{Platform}
    (API_KEY SERVER_URL env_PORT : option string) (f : option json)
    (sevs : list server_event) :
  let st := server_run API_KEY SERVER_URL env_PORT f sevs in
  (∀ rq, rq ∈ outbox st →
     (∃ h t, tasks st !! h = Some t ∧
             rq = HttpRequest "POST" (t_url t) (delivery_headers (t_secret t)))
     ∨ (eval initializeJobs (boot f) = Ret tt ∧
        rq = HttpRequest "GET"
               (VStr (serverUrl SERVER_URL env_PORT +:+ "/health")) ∅)) ∧
  (∀ x_api_key w rq,
     outbox (exec (serve API_KEY w x_api_key rq) st) = outbox st).
Proof.
  intros st.
  set (pinging := returned (listen env_PORT (boot f)).1).
  set (ping := HttpRequest "GET"
                 (VStr (serverUrl SERVER_URL env_PORT +:+ "/health")) ∅).
  assert (pinging = true → eval initializeJobs (boot f) = Ret tt) as Hping.
  { subst pinging. rewrite listen_run. cbv zeta. intros Hret.
    assert (Forall (λ p : string * jobrec,
                      cron_schedule_error (schedule p.2) = None)
              (map_to_list (persisted (boot f)))) as Hall.
    { apply (forEach_startJob_returns _
               (set_console
                  [ConsoleLog
                     ("Server running on port " +:+ to_string (PORT env_PORT))]
                  (boot f))).
      unfold eval.
      destruct (forEach _ _ _) as [[[]|?] ?]; simpl in *; done. }
    unfold eval. rewrite initializeJobs_unfold.
    by rewrite forEach_startJob_run. }
  split.
  - destruct (server_run_invariant
                (λ st, ∀ rq, rq ∈ outbox st →
                   (∃ h t, tasks st !! h = Some t ∧
                      rq = HttpRequest "POST" (t_url t)
                             (delivery_headers (t_secret t)))
                   ∨ (pinging = true ∧ rq = ping))
                API_KEY SERVER_URL env_PORT f sevs) as [_ Hall].
    + rewrite listen_run. cbv zeta. intros rq.
      pose proof (forEach_startJob_outbox (map_to_list (persisted (boot f)))
                    (set_console
                       [ConsoleLog
                          ("Server running on port "
                             +:+ to_string (PORT env_PORT))]
                       (boot f))) as Hout.
      unfold exec in Hout. rewrite Hout. simpl.
      by intros ?%elem_of_nil.
    + intros st0 sev _ _ Hst0 rq. fold pinging.
      destruct sev as [[k w rq0|h ts net]|ts net]; simpl.
      * destruct (serve_cases API_KEY w k rq0 st0) as [-> | ->]; [apply Hst0|].
        rewrite handler_outbox. intros [(h & t & Ht & ->)|Hp]%Hst0; [|by right].
        left. destruct (handler_keeps_tasks w rq0 st0 h t Ht)
          as (t' & Ht' & <- & <-). by exists h, t'.
      * destruct (fire_frame h ts net st0) as (_ & Hts & _).
        unfold exec in *. rewrite fire_run in *.
        destruct (tasks st0 !! h) as [t|] eqn:Ht; [|apply Hst0].
        destruct (t_running t); [|apply Hst0].
        rewrite job_callback_run in *. simpl in *.
        intros [Hin|Hin]%elem_of_app.
        -- by apply Hst0.
        -- apply list_elem_of_singleton in Hin as ->. left. by exists h, t.
      * destruct pinging eqn:Hp; [|apply Hst0].
        unfold exec. rewrite self_ping_run. simpl.
        intros [Hin|Hin]%elem_of_app; [by apply Hst0|].
        apply list_elem_of_singleton in Hin as ->. by right.
    + intros rq Hrq. destruct (Hall rq Hrq) as [?|[Hp ->]]; [by left|].
      right. split; [by apply Hping|done].
  - intros k w rq.
    destruct (serve_cases API_KEY w k rq st) as [-> | ->]; [done|].
    apply handler_outbox.
Qed.

Lemma server_sends_deliveries_and_pings_witness :
  let w := World "2024-01-01T00:00:00.000Z" None in
  let u := VStr "https://example.com/hook" in
  let sevs :=
    [Handled (Arrives (Some "k3y") w
                (PostJobs (Body (VStr "a") u (VStr "0 * * * *") VUndefined)));
     SelfPing "2024-01-01T00:14:00.000Z" (Responded 200);
     Handled (Fires 0 "2024-01-01T01:00:00.000Z" (Responded 200))] in
  let st := server_run (H := Node.platform) (Some "k3y") None None None sevs in
  outbox st =
  [HttpRequest "GET" (VStr "http://localhost:3000/health") ∅;
   HttpRequest "POST" u {[ "Content-Type" := "application/json" ]}] ∧
  outbox (exec (serve (H := Node.platform) (Some "k3y") w (Some "k3y")
                  (DeleteJob "a")) st) = outbox st.
Proof.
  intros w u sevs st. split; [reflexivity|].
  apply (server_sends_deliveries_and_pings (H := Node.platform) (Some "k3y")
           None None None sevs).
Defined.
